(** * Cornerstone property valuator: form state, completeness check and
      pricing formula of [PredictionForm]

    The development embeds the logic of the component file
    (the hooks [useCornerstoneFormState] and [usePricingCalculation] and the
    event handlers of [PredictionForm]) and proves the properties the
    specification states about them.

    Conventions of the embedding:
    - a JavaScript string is a [string] (its UTF-8 bytes);
    - a JavaScript number is a [number]: [NaN], the two infinities, or a
      finite value kept as a reduced rational.  Arithmetic on finite values
      is exact: the rounding of binary64, overflow to an infinity and the
      sign of zero are not represented;
    - React state is a record, an event handler is a function on it, and the
      callback scheduled by [setTimeout] is kept in a queue together with
      the [propertyData] it captured. *)

From Stdlib Require Import Bool List String Ascii NArith ZArith.
From Stdlib Require Import QArith Qround Qminmax Qabs Lia Lqa.
Import ListNotations.

Local Open Scope string_scope.

(* ================================================================== *)
(** * JavaScript numbers *)

Inductive number : Type :=
| NaN
| PosInfinity
| NegInfinity
| Finite (q : Q).

(** Finite values are stored reduced, so that equal numbers are equal terms. *)
Definition finite (q : Q) : number := Finite (Qred q).

Definition ofZ (z : Z) : number := Finite (inject_Z z).

Definition neg (a : number) : number :=
  match a with
  | NaN => NaN
  | PosInfinity => NegInfinity
  | NegInfinity => PosInfinity
  | Finite q => finite (- q)
  end.

(** [a + b] *)
Definition add (a b : number) : number :=
  match a, b with
  | NaN, _ | _, NaN => NaN
  | PosInfinity, NegInfinity | NegInfinity, PosInfinity => NaN
  | PosInfinity, _ | _, PosInfinity => PosInfinity
  | NegInfinity, _ | _, NegInfinity => NegInfinity
  | Finite x, Finite y => finite (x + y)
  end.

(** [a - b] *)
Definition sub (a b : number) : number := add a (neg b).

(** The infinity whose sign is that of [s * q]; [NaN] when [q] is zero. *)
Definition scaleInfinity (positive : bool) (q : Q) : number :=
  match (q ?= 0)%Q with
  | Eq => NaN
  | Gt => if positive then PosInfinity else NegInfinity
  | Lt => if positive then NegInfinity else PosInfinity
  end.

(** [a * b] *)
Definition mul (a b : number) : number :=
  match a, b with
  | NaN, _ | _, NaN => NaN
  | PosInfinity, PosInfinity | NegInfinity, NegInfinity => PosInfinity
  | PosInfinity, NegInfinity | NegInfinity, PosInfinity => NegInfinity
  | PosInfinity, Finite q | Finite q, PosInfinity => scaleInfinity true q
  | NegInfinity, Finite q | Finite q, NegInfinity => scaleInfinity false q
  | Finite x, Finite y => finite (x * y)
  end.

(** [Math.max(a, b)]: [NaN] as soon as one argument is. *)
Definition Math_max (a b : number) : number :=
  match a, b with
  | NaN, _ | _, NaN => NaN
  | PosInfinity, _ | _, PosInfinity => PosInfinity
  | NegInfinity, c | c, NegInfinity => c
  | Finite x, Finite y => if Qle_bool x y then Finite y else Finite x
  end.

(** [Math.round(a)]: the integer nearest to [a], ties towards +infinity. *)
Definition Math_round (a : number) : number :=
  match a with
  | Finite q => ofZ (Qfloor (q + (1 # 2)))
  | _ => a
  end.

(** Strict order on numbers, false whenever [NaN] is involved ([a < b]). *)
Definition lt (a b : number) : Prop :=
  match a, b with
  | NaN, _ | _, NaN => False
  | _, NegInfinity | PosInfinity, _ => False
  | NegInfinity, _ | _, PosInfinity => True
  | Finite x, Finite y => (x < y)%Q
  end.

(* ================================================================== *)
(** * [parseFloat]

    The built-in of the language, written after its definition there: white
    space is trimmed from the start, then the longest prefix that is a
    decimal literal gives the value, and [NaN] results when there is none. *)

Definition isDigit (c : ascii) : bool :=
  ((48 <=? N_of_ascii c) && (N_of_ascii c <=? 57))%N.

Definition digit (c : ascii) : Z := Z.of_N (N_of_ascii c) - 48.

(** TAB, LF, VT, FF, CR and SPACE. *)
Definition isAsciiWhiteSpace (c : ascii) : bool :=
  let n := N_of_ascii c in
  (((9 <=? n) && (n <=? 13)) || (n =? 32))%N.

(** U+00A0 as the two bytes C2 A0. *)
Definition isWhiteSpace2 (c1 c2 : ascii) : bool :=
  ((N_of_ascii c1 =? 194) && (N_of_ascii c2 =? 160))%N.

(** The three-byte white space and line terminators: U+1680, U+2000..U+200A,
    U+2028, U+2029, U+202F, U+205F, U+3000 and U+FEFF. *)
Definition isWhiteSpace3 (c1 c2 c3 : ascii) : bool :=
  let a := N_of_ascii c1 in
  let b := N_of_ascii c2 in
  let c := N_of_ascii c3 in
  (((a =? 225) && (b =? 154) && (c =? 128))
   || ((a =? 226) && (b =? 128)
       && (((128 <=? c) && (c <=? 138)) || (c =? 168) || (c =? 169) || (c =? 175)))
   || ((a =? 226) && (b =? 129) && (c =? 159))
   || ((a =? 227) && (b =? 128) && (c =? 128))
   || ((a =? 239) && (b =? 187) && (c =? 191)))%N.

(** Leading white space and line terminators are dropped first. *)
Fixpoint trimStart (s : string) : string :=
  match s with
  | EmptyString => s
  | String c1 s1 =>
      if isAsciiWhiteSpace c1 then trimStart s1
      else
        match s1 with
        | EmptyString => s
        | String c2 s2 =>
            if isWhiteSpace2 c1 c2 then trimStart s2
            else
              match s2 with
              | EmptyString => s
              | String c3 s3 =>
                  if isWhiteSpace3 c1 c2 c3 then trimStart s3 else s
              end
        end
  end.

(** The longest run of decimal digits at the head of [s], and what follows. *)
Fixpoint spanDigits (s : string) : string * string :=
  match s with
  | EmptyString => (EmptyString, EmptyString)
  | String c s' =>
      if isDigit c
      then let (d, r) := spanDigits s' in (String c d, r)
      else (EmptyString, s)
  end.

(** Value of a run of digits read in base ten, continuing from [acc]. *)
Fixpoint digitsValue (acc : Z) (d : string) : Z :=
  match d with
  | EmptyString => acc
  | String c d' => digitsValue (10 * acc + digit c) d'
  end.

(** A signed integer at the head of [s]: an optional sign, then digits. *)
Definition signedInteger (s : string) : Z :=
  match s with
  | String c s' =>
      if (c =? "-")%char then (- digitsValue 0 (fst (spanDigits s')))%Z
      else if (c =? "+")%char then digitsValue 0 (fst (spanDigits s'))
      else digitsValue 0 (fst (spanDigits s))
  | EmptyString => 0%Z
  end.

(** The exponent at the head of [s]: [e] or [E], then a signed integer.
    Without a digit there is no exponent part, which here reads as 0. *)
Definition exponentPart (s : string) : Z :=
  match s with
  | String c s1 =>
      if ((c =? "e") || (c =? "E"))%char then signedInteger s1 else 0%Z
  | EmptyString => 0%Z
  end.

(** The digits after a decimal point at the head of [s], and what follows;
    no digits and [s] itself when [s] does not start with a point. *)
Definition spanFraction (s : string) : string * string :=
  match s with
  | String c r => if (c =? ".")%char then spanDigits r else (EmptyString, s)
  | EmptyString => (EmptyString, s)
  end.

(** [mantissa * 10 ^ exponent] *)
Definition decimalValue (mantissa exponent : Z) : number :=
  finite (inject_Z mantissa * (10 # 1) ^ exponent).

(** The longest unsigned decimal literal at the head of [s]: [Infinity],
    digits with an optional fraction, or a fraction alone, each with an
    optional exponent part.  [None] when [s] starts with none. *)
Definition parseUnsigned (s : string) : option number :=
  if prefix "Infinity" s then Some PosInfinity
  else
    let (integerDigits, r1) := spanDigits s in
    let (fractionDigits, r2) := spanFraction r1 in
    match integerDigits ++ fractionDigits with
    | EmptyString => None
    | mantissa =>
        Some (decimalValue
                (digitsValue 0 mantissa)
                (exponentPart r2 - Z.of_nat (length fractionDigits)))
    end.

Definition parseFloat (s : string) : number :=
  let trimmed := trimStart s in
  let parsed :=
    match trimmed with
    | String c r =>
        if (c =? "-")%char then option_map neg (parseUnsigned r)
        else if (c =? "+")%char then parseUnsigned r
        else parseUnsigned trimmed
    | EmptyString => None
    end in
  match parsed with
  | Some n => n
  | None => NaN
  end.

(** ** The grammar [parseFloat] recognises

    Written after the productions of the language definition
    ([StrDecimalLiteral] and below), independently of the scanner above. *)

Fixpoint allDigits (d : string) : Prop :=
  match d with
  | EmptyString => True
  | String c d' => isDigit c = true /\ allDigits d'
  end.

(** [DecimalDigits]: one digit or more. *)
Definition DecimalDigits (d : string) : Prop :=
  d <> EmptyString /\ allDigits d.

(** [ExponentPart]: the indicator, then a [SignedInteger]. *)
Inductive ExponentPart : string -> Prop :=
| Exponent_unsigned (c : ascii) (d : string) :
    c = "e"%char \/ c = "E"%char -> DecimalDigits d ->
    ExponentPart (String c d)
| Exponent_signed (c sign : ascii) (d : string) :
    c = "e"%char \/ c = "E"%char -> sign = "+"%char \/ sign = "-"%char ->
    DecimalDigits d ->
    ExponentPart (String c (String sign d)).

Definition OptExponentPart (s : string) : Prop :=
  s = EmptyString \/ ExponentPart s.

Inductive StrUnsignedDecimalLiteral : string -> Prop :=
| Literal_Infinity : StrUnsignedDecimalLiteral "Infinity"
| Literal_integer_fraction (i f e : string) :
    DecimalDigits i -> allDigits f -> OptExponentPart e ->
    StrUnsignedDecimalLiteral (i ++ "." ++ f ++ e)
| Literal_fraction (f e : string) :
    DecimalDigits f -> OptExponentPart e ->
    StrUnsignedDecimalLiteral ("." ++ f ++ e)
| Literal_integer (i e : string) :
    DecimalDigits i -> OptExponentPart e ->
    StrUnsignedDecimalLiteral (i ++ e).

Inductive StrDecimalLiteral : string -> Prop :=
| Literal_unsigned (u : string) :
    StrUnsignedDecimalLiteral u -> StrDecimalLiteral u
| Literal_plus (u : string) :
    StrUnsignedDecimalLiteral u -> StrDecimalLiteral (String "+" u)
| Literal_minus (u : string) :
    StrUnsignedDecimalLiteral u -> StrDecimalLiteral (String "-" u).

(** [s], once trimmed, starts with a decimal literal. *)
Definition hasNumericPrefix (s : string) : Prop :=
  exists literal rest,
    trimStart s = literal ++ rest /\ StrDecimalLiteral literal.




(** [rest] does not start with a digit. *)
Definition nonDigitStart (rest : string) : Prop :=
  match rest with
  | EmptyString => True
  | String c _ => isDigit c = false
  end.

(** [rest] cannot continue a literal: it is empty, or starts with a
    character that is not a digit, a point or an exponent indicator. *)
Definition nonNumericStart (rest : string) : Prop :=
  match rest with
  | EmptyString => True
  | String c _ =>
      isDigit c = false
      /\ c <> "."%char /\ c <> "e"%char /\ c <> "E"%char
  end.

(* ================================================================== *)
(** * Values and object literals *)

(** What a property read can give here: nothing, a number, or one of the
    built-in objects (functions included) reached through the prototype. *)
Inductive value : Type :=
| Undefined
| Number (n : number)
| BuiltinObject (name : string).

(** An object literal: its own properties in the order they are written. *)
Definition object : Type := list (string * value).

Fixpoint ownProperty (o : object) (key : string) : option value :=
  match o with
  | [] => None
  | (k, v) :: o' => if String.eqb k key then Some v else ownProperty o' key
  end.

(** The properties every object literal inherits from [Object.prototype].
    They belong to the language's standard library, not to the repository:
    the names are those of the language definition (the last five are its
    legacy accessors, present in every browser). *)
Definition Object_prototype : object :=
  [ ("constructor", BuiltinObject "Object");
    ("hasOwnProperty", BuiltinObject "Object.prototype.hasOwnProperty");
    ("isPrototypeOf", BuiltinObject "Object.prototype.isPrototypeOf");
    ("propertyIsEnumerable", BuiltinObject "Object.prototype.propertyIsEnumerable");
    ("toLocaleString", BuiltinObject "Object.prototype.toLocaleString");
    ("toString", BuiltinObject "Object.prototype.toString");
    ("valueOf", BuiltinObject "Object.prototype.valueOf");
    ("__proto__", BuiltinObject "Object.prototype");
    ("__defineGetter__", BuiltinObject "Object.prototype.__defineGetter__");
    ("__defineSetter__", BuiltinObject "Object.prototype.__defineSetter__");
    ("__lookupGetter__", BuiltinObject "Object.prototype.__lookupGetter__");
    ("__lookupSetter__", BuiltinObject "Object.prototype.__lookupSetter__") ].

(** [o[key]]: an own property first, then the prototype, else [undefined]. *)
Definition getProperty (o : object) (key : string) : value :=
  match ownProperty o key with
  | Some v => v
  | None =>
      match ownProperty Object_prototype key with
      | Some v => v
      | None => Undefined
      end
  end.

Definition isZero (q : Q) : bool := Qeq_bool q 0.

(** Truthiness: [undefined], [NaN] and zero are falsy, objects are truthy. *)
Definition ToBoolean (v : value) : bool :=
  match v with
  | Undefined => false
  | Number NaN => false
  | Number (Finite q) => negb (isZero q)
  | Number _ => true
  | BuiltinObject _ => true
  end.

(** [a || b] *)
Definition logicalOr (a b : value) : value :=
  if ToBoolean a then a else b.

(** Conversion of an operand of [*]: the built-in objects above convert
    through their string form, which is not a numeric literal. *)
Definition ToNumber (v : value) : number :=
  match v with
  | Undefined => NaN
  | Number n => n
  | BuiltinObject _ => NaN
  end.

(** [!s] for a string [s]: true exactly for the empty string. *)
Definition notString (s : string) : bool :=
  match s with
  | EmptyString => true
  | String _ _ => false
  end.

(* ================================================================== *)
(** * Type definitions *)

Record PropertyAttributes : Type := {
  livingArea : string;
  bedroomCount : string;
  bathroomCount : string;
  geographicZone : string;
  constructionYear : string;
  parkingSpaces : string
}.

(** [keyof PropertyAttributes] *)
Inductive FieldName : Type :=
| LivingArea
| BedroomCount
| BathroomCount
| GeographicZone
| ConstructionYear
| ParkingSpaces.

Definition allFields : list FieldName :=
  [LivingArea; BedroomCount; BathroomCount; GeographicZone; ConstructionYear;
   ParkingSpaces].

Definition fieldKey (f : FieldName) : string :=
  match f with
  | LivingArea => "livingArea"
  | BedroomCount => "bedroomCount"
  | BathroomCount => "bathroomCount"
  | GeographicZone => "geographicZone"
  | ConstructionYear => "constructionYear"
  | ParkingSpaces => "parkingSpaces"
  end.

(** [propertyData[fieldName]] *)
Definition field (propertyData : PropertyAttributes) (f : FieldName) : string :=
  match f with
  | LivingArea => livingArea propertyData
  | BedroomCount => bedroomCount propertyData
  | BathroomCount => bathroomCount propertyData
  | GeographicZone => geographicZone propertyData
  | ConstructionYear => constructionYear propertyData
  | ParkingSpaces => parkingSpaces propertyData
  end.

Record ValidationResult : Type := {
  isValid : bool;
  invalidFields : list string
}.

(* ================================================================== *)
(** * Hook [useCornerstoneFormState] *)

Definition initialPropertyData : PropertyAttributes :=
  {| livingArea := ""; bedroomCount := ""; bathroomCount := "";
     geographicZone := ""; constructionYear := ""; parkingSpaces := "" |}.

(** [{ ...prev, [fieldName]: value }] *)
Definition updateField (fieldName : FieldName) (value : string)
    (prev : PropertyAttributes) : PropertyAttributes :=
  match fieldName with
  | LivingArea =>
      {| livingArea := value; bedroomCount := bedroomCount prev;
         bathroomCount := bathroomCount prev;
         geographicZone := geographicZone prev;
         constructionYear := constructionYear prev;
         parkingSpaces := parkingSpaces prev |}
  | BedroomCount =>
      {| livingArea := livingArea prev; bedroomCount := value;
         bathroomCount := bathroomCount prev;
         geographicZone := geographicZone prev;
         constructionYear := constructionYear prev;
         parkingSpaces := parkingSpaces prev |}
  | BathroomCount =>
      {| livingArea := livingArea prev; bedroomCount := bedroomCount prev;
         bathroomCount := value;
         geographicZone := geographicZone prev;
         constructionYear := constructionYear prev;
         parkingSpaces := parkingSpaces prev |}
  | GeographicZone =>
      {| livingArea := livingArea prev; bedroomCount := bedroomCount prev;
         bathroomCount := bathroomCount prev;
         geographicZone := value;
         constructionYear := constructionYear prev;
         parkingSpaces := parkingSpaces prev |}
  | ConstructionYear =>
      {| livingArea := livingArea prev; bedroomCount := bedroomCount prev;
         bathroomCount := bathroomCount prev;
         geographicZone := geographicZone prev;
         constructionYear := value;
         parkingSpaces := parkingSpaces prev |}
  | ParkingSpaces =>
      {| livingArea := livingArea prev; bedroomCount := bedroomCount prev;
         bathroomCount := bathroomCount prev;
         geographicZone := geographicZone prev;
         constructionYear := constructionYear prev;
         parkingSpaces := value |}
  end.

(** The object literal [validationMap]: one entry per field, in the order
    written, holding whether the field is empty. *)
Definition validationMap (propertyData : PropertyAttributes)
    : list (string * bool) :=
  [ ("livingArea", notString (livingArea propertyData));
    ("bedroomCount", notString (bedroomCount propertyData));
    ("bathroomCount", notString (bathroomCount propertyData));
    ("geographicZone", notString (geographicZone propertyData));
    ("constructionYear", notString (constructionYear propertyData));
    ("parkingSpaces", notString (parkingSpaces propertyData)) ].

(** [Object.entries(validationMap).filter(...).map(...)] and the result. *)
Definition validateFormCompletion (propertyData : PropertyAttributes)
    : ValidationResult :=
  let invalid :=
    map fst (filter (fun entry => snd entry) (validationMap propertyData)) in
  {| isValid := (List.length invalid =? 0)%nat;
     invalidFields := invalid |}.

(** What [resetForm] stores. *)
Definition resetForm : PropertyAttributes :=
  {| livingArea := ""; bedroomCount := ""; bathroomCount := "";
     geographicZone := ""; constructionYear := ""; parkingSpaces := "" |}.

(* ================================================================== *)
(** * Hook [usePricingCalculation]: the valuation model *)

Definition FOUNDATION_VALUE : number := ofZ 150000.
Definition AREA_MULTIPLIER : number := ofZ 120.
Definition BEDROOM_INCREMENT : number := ofZ 25000.
Definition BATHROOM_INCREMENT : number := ofZ 15000.
Definition PARKING_VALUE : number := ofZ 10000.
Definition ANNUAL_DEPRECIATION : number := ofZ 500.
Definition CURRENT_YEAR : number := ofZ 2025.

Definition LOCATION_FACTORS : object :=
  [ ("urban", Number (finite 1.4));
    ("suburban", Number (finite 1.2));
    ("rural", Number (finite 1.0)) ].

Section Valuation.

Variable propertyData : PropertyAttributes.

Definition livingAreaValue : number := parseFloat (livingArea propertyData).
Definition bedroomValue : number := parseFloat (bedroomCount propertyData).
Definition bathroomValue : number := parseFloat (bathroomCount propertyData).
Definition propertyAge : number :=
  sub CURRENT_YEAR (parseFloat (constructionYear propertyData)).
Definition parkingValue : number := parseFloat (parkingSpaces propertyData).

Definition areaComponent : number := mul livingAreaValue AREA_MULTIPLIER.
Definition bedroomComponent : number := mul bedroomValue BEDROOM_INCREMENT.
Definition bathroomComponent : number := mul bathroomValue BATHROOM_INCREMENT.
Definition ageComponent : number :=
  Math_max (ofZ 0) (mul propertyAge ANNUAL_DEPRECIATION).
Definition parkingComponent : number := mul parkingValue PARKING_VALUE.

Definition locationFactor : value :=
  logicalOr (getProperty LOCATION_FACTORS (geographicZone propertyData))
            (Number (finite 1.0)).

Definition baseValuation : number :=
  sub (add (add (add (add FOUNDATION_VALUE areaComponent) bedroomComponent)
                bathroomComponent)
           parkingComponent)
      ageComponent.

Definition adjustedValuation : number :=
  mul baseValuation (ToNumber locationFactor).

(** [random] is what [Math.random()] returns. *)
Variable random : Q.

Definition volatilityRange : number :=
  mul adjustedValuation
      (sub (mul (finite random) (finite 0.1)) (finite 0.05)).

Definition finalValuation : number :=
  Math_round (add adjustedValuation volatilityRange).

End Valuation.

(* ================================================================== *)
(** * Component [PredictionForm]: state, handlers and events *)

Record AppState : Type := {
  propertyData : PropertyAttributes;      (* useCornerstoneFormState *)
  estimatedValue : option number;         (* number | null *)
  isCalculating : bool;
  (** callbacks handed to [setTimeout] and not run yet, oldest first, each
      with the [propertyData] it closed over *)
  timeouts : list PropertyAttributes
}.

Definition initialState : AppState :=
  {| propertyData := initialPropertyData;
     estimatedValue := None;
     isCalculating := false;
     timeouts := [] |}.

(** [executeValuationAlgorithm(propertyData)]: raises the flag and schedules
    the computation. *)
Definition executeValuationAlgorithm (data : PropertyAttributes)
    (s : AppState) : AppState :=
  {| propertyData := propertyData s;
     estimatedValue := estimatedValue s;
     isCalculating := true;
     timeouts := (timeouts s ++ [data])%list |}.

(** The body of the scheduled callback, run when the delay has elapsed. *)
Definition timeoutCallback (data : PropertyAttributes) (random : Q)
    (s : AppState) : AppState :=
  {| propertyData := propertyData s;
     estimatedValue := Some (finalValuation data random);
     isCalculating := false;
     timeouts := timeouts s |}.

Definition clearValuation (s : AppState) : AppState :=
  {| propertyData := propertyData s;
     estimatedValue := None;
     isCalculating := isCalculating s;
     timeouts := timeouts s |}.

(** The memoised [validationStatus]. *)
Definition validationStatus (s : AppState) : ValidationResult :=
  validateFormCompletion (propertyData s).

Definition handleFieldChange (name : FieldName) (value : string)
    (s : AppState) : AppState :=
  clearValuation
    {| propertyData := updateField name value (propertyData s);
       estimatedValue := estimatedValue s;
       isCalculating := isCalculating s;
       timeouts := timeouts s |}.

Definition handleFormSubmission (s : AppState) : AppState :=
  if isValid (validationStatus s)
  then executeValuationAlgorithm (propertyData s) s
  else s.

(** The [disabled] attribute of the submit button. *)
Definition submitDisabled (s : AppState) : bool :=
  negb (isValid (validationStatus s)) || isCalculating s.

(** Whether the result panel is rendered ([estimatedValue !== null]). *)
Definition resultShown (s : AppState) : bool :=
  match estimatedValue s with
  | Some _ => true
  | None => false
  end.

(** [fieldOptions] of the selects listed in [fieldConfigurationMap]; [None]
    for the other controls. *)
Definition fieldOptions (name : FieldName) : option (list string) :=
  match name with
  | LivingArea => None
  | BedroomCount => Some ["1"; "2"; "3"; "4"; "5+"]
  | BathroomCount => Some ["1"; "1.5"; "2"; "2.5"; "3"; "3.5"; "4+"]
  | GeographicZone => Some ["urban"; "suburban"; "rural"]
  | ConstructionYear => None
  | ParkingSpaces => None
  end.

(** The options of the parking select, as (value, label). *)
Definition parkingOptions : list (string * string) :=
  [ ("", "Select..."); ("0", "0"); ("1", "1"); ("2", "2"); ("3", "3+") ].

Definition inStrings (v : string) (l : list string) : bool :=
  existsb (String.eqb v) l.

(** The values each control can put in [e.target.value].  A select offers
    its options and the placeholder; the two number inputs are not
    restricted here (any text is admitted, which covers what they accept). *)
Definition offers (name : FieldName) (v : string) : bool :=
  match name with
  | ParkingSpaces => inStrings v (map fst parkingOptions)
  | _ =>
      match fieldOptions name with
      | Some options => inStrings v ("" :: options)
      | None => true
      end
  end.

Inductive Event : Type :=
| Change (name : FieldName) (value : string)  (* onChange of a control *)
| Submit                                      (* the submit control is used *)
| TimeoutElapsed (random : Q).                (* the oldest callback runs *)

(** One event.  [None] when the event cannot happen in [s]: a value the
    control does not offer, no callback pending, or a [random] outside
    the range of [Math.random()].  Using a disabled submit control is
    possible and does nothing.  What the browser itself checks before it
    hands a submission to the handler (required, number, min and max of the
    inputs) is not represented: every use of the enabled control reaches
    the handler, so the runs of the page are among the runs described here,
    and a submission that starts a calculation here may start none there. *)
Definition dispatch (s : AppState) (e : Event) : option AppState :=
  match e with
  | Change name v =>
      if offers name v then Some (handleFieldChange name v s) else None
  | Submit =>
      Some (if submitDisabled s then s else handleFormSubmission s)
  | TimeoutElapsed random =>
      match timeouts s with
      | [] => None
      | data :: later =>
          if Qle_bool 0 random && negb (Qle_bool 1 random)
          then Some (timeoutCallback data random
                       {| propertyData := propertyData s;
                          estimatedValue := estimatedValue s;
                          isCalculating := isCalculating s;
                          timeouts := later |})
          else None
      end
  end.

Fixpoint run (s : AppState) (events : list Event) : option AppState :=
  match events with
  | [] => Some s
  | e :: events' =>
      match dispatch s e with
      | Some s' => run s' events'
      | None => None
      end
  end.

Definition reachable (s : AppState) : Prop :=
  exists events, run initialState events = Some s.

(** Attributes as the controls can leave them when a calculation starts:
    every field holds a value its control offers, and none is empty. *)
Definition fromControls (data : PropertyAttributes) : Prop :=
  forall f, offers f (field data f) = true /\ field data f <> "".

(** An event other than the elapse of a timeout. *)
Definition userEvent (e : Event) : Prop :=
  match e with
  | TimeoutElapsed _ => False
  | _ => True
  end.

(* ================================================================== *)
(** * Component [Window] *)

Module Window.

(** [useState(false)] *)
Definition initialIsOpen : bool := false.

(** The interval callback, [setIsOpen(prev => !prev)]. *)
Definition toggle (prev : bool) : bool := negb prev.

(** The period handed to [setInterval]; [random] is what [Math.random()]
    returns. *)
Definition intervalPeriod (random : Q) : number :=
  add (ofZ 4000) (mul (finite random) (ofZ 2000)).

(** [isOpen] once the interval has fired [n] times. *)
Definition isOpenAfter (n : nat) : bool := Nat.iter n toggle initialIsOpen.

(** The [scaleX] both panes are animated to. *)
Definition scaleX (isOpen : bool) : number :=
  if isOpen then finite 0.3 else ofZ 1.

End Window.

(* ================================================================== *)
(** * Component [AnimatedBackground]: the falling leaves *)

Module AnimatedBackground.

Record LeafConfig : Type := {
  key : number;
  delay : number;
  duration : number;
  startX : string
}.

(** What a [Leaf] is given. *)
Record LeafProps : Type := {
  leafDelay : number;
  leafDuration : number;
  leafStartX : number
}.

Section Leaves.

(** The conversion of a number to text that [+ '%'] applies; it belongs to
    the language and is left open. *)
Variable toString : number -> string.

(** The successive results of [Math.random()]. *)
Variable randoms : nat -> Q.

(** The element [Array.from] builds at index [i]: two draws, the duration
    first. *)
Definition leaf (i : nat) : LeafConfig :=
  {| key := ofZ (Z.of_nat i);
     delay := mul (ofZ (Z.of_nat i)) (ofZ 2);
     duration := add (ofZ 10) (mul (finite (randoms (2 * i))) (ofZ 5));
     startX := toString (mul (finite (randoms (2 * i + 1))) (ofZ 100)) ++ "%" |}.

(** [Array.from({ length: 15 }, ...)] *)
Definition leaves : list LeafConfig := map leaf (seq 0 15).

Definition leafProps (l : LeafConfig) : LeafProps :=
  {| leafDelay := delay l;
     leafDuration := duration l;
     leafStartX := parseFloat (startX l) |}.

End Leaves.

End AnimatedBackground.

(** The property of the specification's worked example. *)
Definition exampleProperty : PropertyAttributes :=
  {| livingArea := "2000"; bedroomCount := "3"; bathroomCount := "2";
     geographicZone := "suburban"; constructionYear := "2010";
     parkingSpaces := "2" |}.

(* ================================================================== *)
(** * Properties of the number operations *)

Lemma finite_eq (x y : Q) : x == y -> finite x = finite y.
Proof. intros H. unfold finite. f_equal. now apply Qred_complete. Qed.

Lemma mul_NaN_l (a : number) : mul NaN a = NaN.
Proof. reflexivity. Qed.

Lemma mul_NaN_r (a : number) : mul a NaN = NaN.
Proof. now destruct a. Qed.

Lemma add_NaN_l (a : number) : add NaN a = NaN.
Proof. reflexivity. Qed.

Lemma add_NaN_r (a : number) : add a NaN = NaN.
Proof. now destruct a. Qed.

Lemma sub_NaN_l (a : number) : sub NaN a = NaN.
Proof. reflexivity. Qed.

Lemma sub_NaN_r (a : number) : sub a NaN = NaN.
Proof. now destruct a. Qed.

Lemma Math_max_NaN_r (a : number) : Math_max a NaN = NaN.
Proof. now destruct a. Qed.

Lemma Math_round_NaN : Math_round NaN = NaN.
Proof. reflexivity. Qed.

(** [Math.round] of a finite value between two integers stays between them. *)
Lemma Math_round_between (q : Q) (lo hi : Z) :
  inject_Z lo <= q -> q <= inject_Z hi ->
  exists z, Math_round (Finite q) = ofZ z /\ (lo <= z <= hi)%Z.
Proof.
  intros Hlo Hhi. exists (Qfloor (q + (1 # 2))). split; [reflexivity|].
  split.
  - rewrite <- (Qfloor_Z lo). apply Qfloor_resp_le. lra.
  - assert (H : (Qfloor (q + (1 # 2)) <= Qfloor (inject_Z hi + (1 # 2)))%Z)
      by (apply Qfloor_resp_le; lra).
    assert (H' : (Qfloor (inject_Z hi + (1 # 2)) < hi + 1)%Z).
    { apply Z.lt_nge. intros Hge.
      assert (Hq : inject_Z (hi + 1) <= inject_Z hi + (1 # 2)).
      { eapply Qle_trans; [|apply Qfloor_le]. now rewrite <- Zle_Qle. }
      rewrite inject_Z_plus in Hq. change (inject_Z 1) with 1 in Hq. lra. }
    lia.
Qed.

(* ================================================================== *)
(** * The worked example of the valuation formula *)

Lemma example_baseValuation : baseValuation exampleProperty = ofZ 507500.
Proof. vm_compute. reflexivity. Qed.

Lemma example_adjustedValuation :
  adjustedValuation exampleProperty = ofZ 609000.
Proof. vm_compute. reflexivity. Qed.

(** C1. For livingArea "2000", bedroomCount "3", bathroomCount "2",
    geographicZone "suburban", constructionYear "2010" and parkingSpaces "2"
    the base valuation is 507500 and the adjusted valuation 609000; whatever
    the random draw in [0, 1], the final valuation is an integer between
    578550 and 639450. *)
Theorem example_valuation :
  baseValuation exampleProperty = ofZ 507500
  /\ adjustedValuation exampleProperty = ofZ 609000
  /\ forall random : Q,
       0 <= random <= 1 ->
       exists z : Z,
         finalValuation exampleProperty random = ofZ z
         /\ (578550 <= z <= 639450)%Z.
Proof.
  split; [exact example_baseValuation|].
  split; [exact example_adjustedValuation|].
  intros random [H0 H1].
  unfold finalValuation, volatilityRange.
  rewrite example_adjustedValuation.
  unfold ofZ, sub, mul, add, neg, finite.
  apply Math_round_between; rewrite !Qred_correct, ?Qred_opp, ?Qred_correct;
    change (inject_Z 609000) with 609000;
    change (inject_Z 578550) with 578550;
    change (inject_Z 639450) with 639450; lra.
Qed.

Lemma example_valuation_witness :
  exists z : Z,
    finalValuation exampleProperty 0.5 = ofZ z /\ (578550 <= z <= 639450)%Z.
Proof.
  apply (proj2 (proj2 example_valuation) 0.5). split; lra.
Defined.

(* ================================================================== *)
(** * The age component *)

Lemma propertyAge_Finite (data : PropertyAttributes) (year : Q) :
  parseFloat (constructionYear data) = Finite year ->
  propertyAge data = finite (2025 - year).
Proof.
  intros H. unfold propertyAge. rewrite H. unfold CURRENT_YEAR, sub, neg, add, ofZ.
  apply finite_eq. unfold finite. rewrite Qred_correct.
  change (inject_Z 2025) with 2025. lra.
Qed.

Lemma ageComponent_Finite (data : PropertyAttributes) (year : Q) :
  parseFloat (constructionYear data) = Finite year ->
  ageComponent data = finite (Qmax 0 ((2025 - year) * 500)).
Proof.
  intros H. unfold ageComponent. rewrite (propertyAge_Finite _ _ H).
  unfold ANNUAL_DEPRECIATION, ofZ, mul, finite, Math_max.
  change (inject_Z 500) with 500. change (inject_Z 0) with 0.
  assert (E : Qred (Qred (2025 - year) * 500) = Qred ((2025 - year) * 500)).
  { apply Qred_complete. now rewrite Qred_correct. }
  rewrite E.
  destruct (Qle_bool 0 (Qred ((2025 - year) * 500))) eqn:Hle.
  - apply Qle_bool_iff in Hle. rewrite Qred_correct in Hle.
    f_equal. apply Qred_complete. symmetry. now apply Q.max_r.
  - assert (Hlt : (2025 - year) * 500 < 0).
    { apply Qnot_le_lt. intros Hc.
      assert (Ht : Qle_bool 0 (Qred ((2025 - year) * 500)) = true)
        by (apply Qle_bool_iff; now rewrite Qred_correct).
      congruence. }
    f_equal. transitivity (Qred 0); [reflexivity|].
    apply Qred_complete. symmetry. apply Q.max_l. lra.
Qed.

(** C6. When the parsed construction year is greater than 2025 the age
    component is 0; for every year that parses to a finite number the age
    component is max(0, (2025 - year) * 500), and for the year -Infinity it
    is +Infinity; the age component is never negative. *)
Theorem ageComponent_clamped (data : PropertyAttributes) :
  (lt CURRENT_YEAR (parseFloat (constructionYear data)) ->
   ageComponent data = ofZ 0)
  /\ (forall year : Q,
        parseFloat (constructionYear data) = Finite year ->
        ageComponent data = finite (Qmax 0 ((2025 - year) * 500)))
  /\ (parseFloat (constructionYear data) = NegInfinity ->
      ageComponent data = PosInfinity)
  /\ ~ lt (ageComponent data) (ofZ 0).
Proof.
  split; [|split; [|split]]; [| |
    intros Hy; unfold ageComponent, propertyAge; rewrite Hy; reflexivity|].
  - destruct (parseFloat (constructionYear data)) as [| | |year] eqn:Hy;
      simpl; try contradiction.
    + intros _. unfold ageComponent, propertyAge. rewrite Hy. reflexivity.
    + change (inject_Z 2025) with 2025. intros Hlt.
      rewrite (ageComponent_Finite _ _ Hy).
      transitivity (finite 0); [|reflexivity].
      apply finite_eq. apply Q.max_l. lra.
  - intros year Hy. now apply ageComponent_Finite.
  - destruct (parseFloat (constructionYear data)) as [| | |year] eqn:Hy.
    + unfold ageComponent, propertyAge. rewrite Hy. simpl. tauto.
    + unfold ageComponent, propertyAge. rewrite Hy. simpl. lra.
    + unfold ageComponent, propertyAge. rewrite Hy. simpl. tauto.
    + rewrite (ageComponent_Finite _ _ Hy). unfold finite, ofZ, lt.
      rewrite Qred_correct. change (inject_Z 0) with 0.
      pose proof (Q.le_max_l 0 ((2025 - year) * 500)). lra.
Qed.

Lemma ageComponent_clamped_witness :
  ageComponent (updateField ConstructionYear "2030" exampleProperty) = ofZ 0.
Proof.
  apply (proj1 (ageComponent_clamped
                  (updateField ConstructionYear "2030" exampleProperty))).
  vm_compute. reflexivity.
Defined.

(* ================================================================== *)
(** * Strings and digit runs *)

Lemma append_assoc (a b c : string) : (a ++ b) ++ c = a ++ (b ++ c).
Proof. induction a as [|x a IH]; simpl; [reflexivity|now rewrite IH]. Qed.

Lemma append_empty_r (a : string) : a ++ "" = a.
Proof. induction a as [|x a IH]; simpl; [reflexivity|now rewrite IH]. Qed.

Lemma allDigits_app (a b : string) :
  allDigits a -> allDigits b -> allDigits (a ++ b).
Proof.
  induction a as [|x a IH]; simpl; [tauto|]. intros [Hx Ha] Hb. auto.
Qed.

Lemma digit_eqb_false (c x : ascii) :
  isDigit c = true -> isDigit x = false -> (c =? x)%char = false.
Proof.
  intros Hc Hx. destruct (Ascii.eqb_spec c x) as [->|]; congruence.
Qed.

Lemma nonNumericStart_nonDigit (rest : string) :
  nonNumericStart rest -> nonDigitStart rest.
Proof. destruct rest; simpl; tauto. Qed.

Lemma spanDigits_split (s : string) :
  fst (spanDigits s) ++ snd (spanDigits s) = s
  /\ allDigits (fst (spanDigits s))
  /\ nonDigitStart (snd (spanDigits s)).
Proof.
  induction s as [|c s IH]; simpl; [tauto|].
  destruct (isDigit c) eqn:Hc.
  - destruct (spanDigits s) as [d r]. simpl in *.
    destruct IH as (E & Hd & Hr). rewrite E. tauto.
  - simpl. tauto.
Qed.

Lemma spanDigits_app (d rest : string) :
  allDigits d -> nonDigitStart rest -> spanDigits (d ++ rest) = (d, rest).
Proof.
  intros Hd Hrest. induction d as [|c d IH]; simpl.
  - destruct rest as [|c r]; simpl in *; [reflexivity|now rewrite Hrest].
  - destruct Hd as [Hc Hd]. rewrite Hc, (IH Hd). reflexivity.
Qed.

Lemma spanDigits_digits (d : string) : allDigits d -> spanDigits d = (d, "").
Proof.
  intros Hd. rewrite <- (append_empty_r d) at 1.
  now apply spanDigits_app.
Qed.

Lemma spanDigits_head (c : ascii) (s : string) :
  isDigit c = true ->
  exists d r, spanDigits (String c s) = (String c d, r).
Proof.
  intros Hc. simpl. rewrite Hc. destruct (spanDigits s) as [d r]. eauto.
Qed.

Lemma prefix_split (p s : string) :
  prefix p s = true -> exists r, s = p ++ r.
Proof.
  revert s. induction p as [|a p IH]; intros s H; simpl in *.
  - now exists s.
  - destruct s as [|b s]; simpl in H; [discriminate|].
    destruct (ascii_dec a b) as [->|]; [|discriminate].
    destruct (IH _ H) as [r ->]. now exists r.
Qed.

Lemma prefix_append (p r : string) : prefix p (p ++ r) = true.
Proof.
  induction p as [|a p IH]; simpl; [now destruct r|].
  destruct (ascii_dec a a); [assumption|congruence].
Qed.

Lemma prefix_Infinity_head (c : ascii) (s : string) :
  c <> "I"%char -> prefix "Infinity" (String c s) = false.
Proof.
  intros Hc. cbn [prefix].
  destruct (ascii_dec "I" c) as [E|]; [congruence|reflexivity].
Qed.

Lemma digit_not_I (c : ascii) : isDigit c = true -> c <> "I"%char.
Proof. intros Hc ->. vm_compute in Hc. discriminate. Qed.

(* ================================================================== *)
(** * [parseFloat] and the grammar *)

Lemma decimalValue_not_NaN (m e : Z) : decimalValue m e <> NaN.
Proof. discriminate. Qed.

Lemma neg_not_NaN (n : number) : n <> NaN -> neg n <> NaN.
Proof. destruct n; simpl; unfold finite; congruence. Qed.

Lemma trimStart_head (c : ascii) (s : string) :
  isAsciiWhiteSpace c = false -> (N_of_ascii c < 194)%N ->
  trimStart (String c s) = String c s.
Proof.
  intros Hws Hc.
  assert (H2 : forall c2, isWhiteSpace2 c c2 = false).
  { intros c2. unfold isWhiteSpace2.
    destruct (N.eqb_spec (N_of_ascii c) 194); [lia|reflexivity]. }
  assert (H3 : forall c2 c3, isWhiteSpace3 c c2 c3 = false).
  { intros c2 c3. unfold isWhiteSpace3.
    destruct (N.eqb_spec (N_of_ascii c) 225); [lia|].
    destruct (N.eqb_spec (N_of_ascii c) 226); [lia|].
    destruct (N.eqb_spec (N_of_ascii c) 227); [lia|].
    destruct (N.eqb_spec (N_of_ascii c) 239); [lia|]. reflexivity. }
  cbn [trimStart]. rewrite Hws.
  destruct s as [|c2 [|c3 s]]; rewrite ?H2, ?H3; reflexivity.
Qed.

Lemma isDigit_code (c : ascii) :
  isDigit c = true -> (48 <= N_of_ascii c <= 57)%N.
Proof.
  unfold isDigit. intros H. apply andb_true_iff in H as [H1 H2].
  apply N.leb_le in H1, H2. lia.
Qed.

Lemma trimStart_digit (c : ascii) (s : string) :
  isDigit c = true -> trimStart (String c s) = String c s.
Proof.
  intros Hc. apply isDigit_code in Hc. apply trimStart_head; [|lia].
  unfold isAsciiWhiteSpace.
  destruct (N.leb_spec 9 (N_of_ascii c)), (N.leb_spec (N_of_ascii c) 13),
    (N.eqb_spec (N_of_ascii c) 32); simpl; try reflexivity; lia.
Qed.

Lemma spanFraction_no_point (rest : string) :
  nonNumericStart rest -> spanFraction rest = ("", rest).
Proof.
  destruct rest as [|c r]; simpl; [reflexivity|]. intros (_ & Hp & _).
  destruct (Ascii.eqb_spec c "."); [contradiction|reflexivity].
Qed.

Lemma parseUnsigned_digits (i tail fp r2 : string) :
  DecimalDigits i -> nonDigitStart tail -> spanFraction tail = (fp, r2) ->
  parseUnsigned (i ++ tail)
  = Some (decimalValue (digitsValue 0 (i ++ fp))
            (exponentPart r2 - Z.of_nat (length fp))).
Proof.
  intros [Hne Hi] Htail Hfrac. unfold parseUnsigned.
  rewrite (spanDigits_app _ _ Hi Htail), Hfrac.
  destruct i as [|h i]; [congruence|]. destruct Hi as [Hh _].
  change (String h i ++ tail) with (String h (i ++ tail)).
  rewrite (prefix_Infinity_head _ _ (digit_not_I _ Hh)).
  reflexivity.
Qed.

Lemma parseUnsigned_point (f tail : string) :
  DecimalDigits f -> nonDigitStart tail ->
  parseUnsigned ("." ++ f ++ tail)
  = Some (decimalValue (digitsValue 0 f)
            (exponentPart tail - Z.of_nat (length f))).
Proof.
  intros [Hne Hf] Htail. unfold parseUnsigned.
  change ("." ++ f ++ tail) with (String "." (f ++ tail)).
  rewrite prefix_Infinity_head by discriminate.
  change (spanDigits (String "." (f ++ tail)))
    with (EmptyString, String "." (f ++ tail)).
  cbv beta iota.
  change (spanFraction (String "." (f ++ tail))) with (spanDigits (f ++ tail)).
  rewrite (spanDigits_app _ _ Hf Htail).
  destruct f as [|h f]; [congruence|]. reflexivity.
Qed.

Lemma signedInteger_digits (d rest : string) :
  DecimalDigits d -> nonDigitStart rest ->
  signedInteger (d ++ rest) = digitsValue 0 d.
Proof.
  intros [Hne Hd] Hrest. pose proof (spanDigits_app _ _ Hd Hrest) as E.
  destruct d as [|h d]; [congruence|]. destruct Hd as [Hh Hd].
  change (String h d ++ rest) with (String h (d ++ rest)) in *.
  unfold signedInteger.
  rewrite (digit_eqb_false h "-" Hh eq_refl), (digit_eqb_false h "+" Hh eq_refl).
  now rewrite E.
Qed.

Lemma exponentPart_app (e rest : string) :
  OptExponentPart e -> nonNumericStart rest ->
  exponentPart (e ++ rest) = exponentPart e /\ nonDigitStart (e ++ rest).
Proof.
  intros [->|He] Hrest.
  - split; [|now apply nonNumericStart_nonDigit].
    destruct rest as [|c r]; [reflexivity|]. destruct Hrest as (_ & _ & H1 & H2).
    simpl. destruct (Ascii.eqb_spec c "e"), (Ascii.eqb_spec c "E");
      try contradiction. reflexivity.
  - apply nonNumericStart_nonDigit in Hrest.
    destruct He as [c d Hc Hd|c sign d Hc Hs Hd].
    + split; [|destruct Hc as [->| ->]; reflexivity].
      change (String c d ++ rest) with (String c (d ++ rest)).
      unfold exponentPart.
      rewrite (signedInteger_digits _ _ Hd Hrest).
      rewrite <- (append_empty_r d) at 2.
      now rewrite (signedInteger_digits d "" Hd I).
    + split; [|destruct Hc as [->| ->]; reflexivity].
      change (String c (String sign d) ++ rest)
        with (String c (String sign (d ++ rest))).
      unfold exponentPart, signedInteger.
      destruct Hd as [_ Hd].
      rewrite (spanDigits_app _ _ Hd Hrest), (spanDigits_digits _ Hd).
      destruct Hs as [->| ->]; reflexivity.
Qed.

(** A literal has one value, whatever non-numeric text follows it. *)
Lemma parseUnsigned_literal_value (u : string) :
  StrUnsignedDecimalLiteral u ->
  exists v, v <> NaN /\
    forall rest, nonNumericStart rest -> parseUnsigned (u ++ rest) = Some v.
Proof.
  intros [|i f e Hi Hf He|f e Hf He|i e Hi He].
  - exists PosInfinity. split; [discriminate|]. intros rest _.
    unfold parseUnsigned. now rewrite prefix_append.
  - eexists. split; [apply decimalValue_not_NaN|]. intros rest Hrest.
    destruct (exponentPart_app e rest He Hrest) as [Ee Hnd].
    rewrite !append_assoc.
    rewrite (parseUnsigned_digits i _ f (e ++ rest) Hi).
    + rewrite Ee. reflexivity.
    + reflexivity.
    + change (spanFraction ("." ++ f ++ e ++ rest))
        with (spanDigits (f ++ e ++ rest)).
      now apply spanDigits_app.
  - eexists. split; [apply decimalValue_not_NaN|]. intros rest Hrest.
    destruct (exponentPart_app e rest He Hrest) as [Ee Hnd].
    rewrite !append_assoc.
    rewrite (parseUnsigned_point f (e ++ rest) Hf Hnd), Ee. reflexivity.
  - eexists. split; [apply decimalValue_not_NaN|]. intros rest Hrest.
    destruct (exponentPart_app e rest He Hrest) as [Ee Hnd].
    rewrite append_assoc.
    assert (Hsf : spanFraction (e ++ rest) = ("", e ++ rest)).
    { destruct He as [->|He]; [now apply spanFraction_no_point|].
      destruct He as [c d [->| ->] _|c sign d [->| ->] _ _]; reflexivity. }
    rewrite (parseUnsigned_digits i _ _ _ Hi Hnd Hsf), Ee, append_empty_r.
    reflexivity.
Qed.

Lemma parseUnsigned_literal_app (u rest : string) :
  StrUnsignedDecimalLiteral u -> nonNumericStart rest ->
  parseUnsigned (u ++ rest) = parseUnsigned u
  /\ exists v, parseUnsigned u = Some v /\ v <> NaN.
Proof.
  intros Hu Hrest.
  destruct (parseUnsigned_literal_value u Hu) as (v & Hv & H).
  pose proof (H "" I) as E0. rewrite append_empty_r in E0.
  rewrite (H rest Hrest), E0. eauto.
Qed.

(** Text that starts with a literal parses, whatever comes after. *)
Lemma parseUnsigned_literal_prefix (u rest : string) :
  StrUnsignedDecimalLiteral u ->
  exists v, parseUnsigned (u ++ rest) = Some v /\ v <> NaN.
Proof.
  assert (Hdigits : forall i tail, DecimalDigits i ->
            exists v, parseUnsigned (i ++ tail) = Some v /\ v <> NaN).
  { intros i tail [Hne Hi].
    destruct (spanDigits_split tail) as (E & Hd & Hr).
    destruct (spanDigits tail) as [d r]. simpl in E, Hd, Hr.
    destruct (spanFraction r) as [fp r2] eqn:Hsf.
    rewrite <- E, <- (append_assoc i d r).
    erewrite parseUnsigned_digits; eauto using decimalValue_not_NaN.
    split; [|now apply allDigits_app].
    destruct i; [congruence|discriminate]. }
  intros [|i f e Hi Hf He|f e Hf He|i e Hi He].
  - exists PosInfinity. split; [|discriminate].
    unfold parseUnsigned. now rewrite prefix_append.
  - rewrite append_assoc. now apply Hdigits.
  - destruct Hf as [Hne Hf].
    destruct (spanDigits_split (e ++ rest)) as (E & Hd & Hr).
    destruct (spanDigits (e ++ rest)) as [d r]. simpl in E, Hd, Hr.
    rewrite !append_assoc, <- E, <- (append_assoc f d r).
    rewrite parseUnsigned_point; eauto using decimalValue_not_NaN.
    split; [|now apply allDigits_app].
    destruct f; [congruence|discriminate].
  - rewrite append_assoc. now apply Hdigits.
Qed.

(** What [parseUnsigned] accepts starts with a literal. *)
Lemma parseUnsigned_Some (s : string) (v : number) :
  parseUnsigned s = Some v ->
  v <> NaN
  /\ exists u rest, s = u ++ rest /\ StrUnsignedDecimalLiteral u.
Proof.
  unfold parseUnsigned.
  destruct (prefix "Infinity" s) eqn:Hp.
  - intros [= <-]. split; [discriminate|].
    destruct (prefix_split _ _ Hp) as [r ->].
    exists "Infinity", r. split; [reflexivity|constructor].
  - destruct (spanDigits_split s) as (E & Hi & _).
    destruct (spanDigits s) as [ip r1]. simpl in E, Hi.
    destruct (spanFraction r1) as [fp r2] eqn:Hsf.
    destruct (ip ++ fp) as [|m0 m] eqn:Hm; [discriminate|].
    intros [= <-]. split; [apply decimalValue_not_NaN|].
    assert (Hopt : OptExponentPart "") by now left.
    destruct ip as [|h ip].
    + (* a fraction alone *)
      simpl in Hm. subst fp. simpl in E. subst r1.
      destruct s as [|c r]; [discriminate|]. simpl in Hsf.
      destruct (Ascii.eqb_spec c "."); [subst c|discriminate].
      destruct (spanDigits_split r) as (E & Hf & _).
      rewrite Hsf in E, Hf. simpl in E, Hf.
      exists ("." ++ String m0 m ++ ""), r2. split.
      * rewrite append_empty_r. simpl. now rewrite <- E.
      * apply Literal_fraction; [|assumption]. split; [discriminate|assumption].
    + (* digits first *)
      exists (String h ip ++ ""), r1. split.
      * now rewrite append_empty_r.
      * apply Literal_integer; [|assumption]. split; [discriminate|assumption].
Qed.

Lemma literal_head (u : string) :
  StrUnsignedDecimalLiteral u ->
  exists h t, u = String h t
    /\ (isDigit h = true \/ h = "."%char \/ h = "I"%char).
Proof.
  intros [|i f e [Hne Hi] _ _|f e _ _|i e [Hne Hi] _].
  - exists "I"%char, "nfinity". tauto.
  - destruct i as [|h i]; [congruence|]. destruct Hi as [Hh _].
    exists h, (i ++ "." ++ f ++ e). tauto.
  - exists "."%char, (f ++ e). tauto.
  - destruct i as [|h i]; [congruence|]. destruct Hi as [Hh _].
    exists h, (i ++ e). tauto.
Qed.

(** An unsigned literal is read directly: its first character is neither
    white space nor a sign. *)
Lemma parseFloat_unsigned_head (h : ascii) (t : string) :
  isDigit h = true \/ h = "."%char \/ h = "I"%char ->
  parseFloat (String h t)
  = match parseUnsigned (String h t) with Some n => n | None => NaN end.
Proof.
  intros Hh. unfold parseFloat.
  assert (Ht : trimStart (String h t) = String h t).
  { destruct Hh as [Hh|[->| ->]]; [now apply trimStart_digit| |];
      apply trimStart_head; vm_compute; reflexivity. }
  assert (Hs : (h =? "-")%char = false /\ (h =? "+")%char = false).
  { destruct Hh as [Hh|[->| ->]]; [|split; reflexivity..].
    split; now apply digit_eqb_false. }
  destruct Hs as [Hm Hp]. rewrite Ht. cbv zeta. now rewrite Hm, Hp.
Qed.

Lemma parseFloat_minus (r : string) :
  parseFloat (String "-" r)
  = match parseUnsigned r with Some n => neg n | None => NaN end.
Proof.
  unfold parseFloat. rewrite trimStart_head by (vm_compute; reflexivity).
  cbv zeta. change ("-" =? "-")%char with true. cbv iota.
  now destruct (parseUnsigned r).
Qed.

Lemma parseFloat_plus (r : string) :
  parseFloat (String "+" r)
  = match parseUnsigned r with Some n => n | None => NaN end.
Proof.
  unfold parseFloat. rewrite trimStart_head by (vm_compute; reflexivity).
  reflexivity.
Qed.

(** Leading white space does not count. *)
Lemma parseFloat_trimStart (s : string) :
  parseFloat s
  = match trimStart s with
    | String c r =>
        if (c =? "-")%char
        then match parseUnsigned r with Some n => neg n | None => NaN end
        else if (c =? "+")%char
        then match parseUnsigned r with Some n => n | None => NaN end
        else match parseUnsigned (trimStart s) with
             | Some n => n
             | None => NaN
             end
    | EmptyString => NaN
    end.
Proof.
  unfold parseFloat. destruct (trimStart s) as [|c r]; [reflexivity|].
  cbv zeta. destruct (c =? "-")%char; [now destruct (parseUnsigned r)|].
  now destruct (c =? "+")%char.
Qed.

(** [parseFloat] yields [NaN] exactly for the strings that, once trimmed,
    do not start with a decimal literal. *)
Lemma parseFloat_NaN_iff (s : string) :
  parseFloat s = NaN <-> ~ hasNumericPrefix s.
Proof.
  rewrite parseFloat_trimStart. unfold hasNumericPrefix. split.
  - intros HNaN (literal & rest & Ht & Hlit). rewrite Ht in HNaN.
    destruct Hlit as [u Hu|u Hu|u Hu].
    + destruct (literal_head u Hu) as (h & t & -> & Hh).
      destruct (parseUnsigned_literal_prefix _ rest Hu) as (v & Hv & Hn).
      change (String h t ++ rest) with (String h (t ++ rest)) in *.
      cbv beta iota in HNaN.
      assert (Hs : (h =? "-")%char = false /\ (h =? "+")%char = false).
      { destruct Hh as [Hh|[->| ->]]; [|split; reflexivity..].
        split; now apply digit_eqb_false. }
      destruct Hs as [Hm Hp]. rewrite Hm, Hp, Hv in HNaN. contradiction.
    + destruct (parseUnsigned_literal_prefix _ rest Hu) as (v & Hv & Hn).
      change (String "+" u ++ rest) with (String "+" (u ++ rest)) in HNaN.
      cbv beta iota in HNaN.
      change ("+" =? "-")%char with false in HNaN.
      change ("+" =? "+")%char with true in HNaN. cbv iota in HNaN.
      rewrite Hv in HNaN. contradiction.
    + destruct (parseUnsigned_literal_prefix _ rest Hu) as (v & Hv & Hn).
      change (String "-" u ++ rest) with (String "-" (u ++ rest)) in HNaN.
      cbv beta iota in HNaN.
      change ("-" =? "-")%char with true in HNaN. cbv iota in HNaN.
      rewrite Hv in HNaN. now apply neg_not_NaN in Hn.
  - intros Hno. destruct (trimStart s) as [|c r] eqn:Ht; [reflexivity|].
    destruct (Ascii.eqb_spec c "-") as [->|Hm].
    + destruct (parseUnsigned r) as [v|] eqn:Hv; [|reflexivity].
      destruct (parseUnsigned_Some _ _ Hv) as (_ & u & rest & -> & Hu).
      exfalso. apply Hno. exists (String "-" u), rest.
      split; [reflexivity|now constructor].
    + destruct (Ascii.eqb_spec c "+") as [->|Hp].
      * destruct (parseUnsigned r) as [v|] eqn:Hv; [|reflexivity].
        destruct (parseUnsigned_Some _ _ Hv) as (_ & u & rest & -> & Hu).
        exfalso. apply Hno. exists (String "+" u), rest.
        split; [reflexivity|now constructor].
      * destruct (parseUnsigned (String c r)) as [v|] eqn:Hv; [|reflexivity].
        destruct (parseUnsigned_Some _ _ Hv) as (_ & u & rest & E & Hu).
        exfalso. apply Hno. exists u, rest. split; [assumption|now constructor].
Qed.

(** Non-numeric text after a literal does not change what is parsed. *)
Lemma parseFloat_literal_app (literal rest : string) :
  StrDecimalLiteral literal -> nonNumericStart rest ->
  parseFloat (literal ++ rest) = parseFloat literal
  /\ parseFloat literal <> NaN.
Proof.
  intros Hlit Hrest. destruct Hlit as [u Hu|u Hu|u Hu];
    destruct (parseUnsigned_literal_app u rest Hu Hrest) as (E & v & Ev & Hv).
  - destruct (literal_head u Hu) as (h & t & -> & Hh).
    change (String h t ++ rest) with (String h (t ++ rest)) in *.
    rewrite !parseFloat_unsigned_head by assumption.
    rewrite E, Ev. tauto.
  - change (String "+" u ++ rest) with (String "+" (u ++ rest)).
    rewrite !parseFloat_plus, E, Ev. tauto.
  - change (String "-" u ++ rest) with (String "-" (u ++ rest)).
    rewrite !parseFloat_minus, E, Ev. split; [reflexivity|].
    now apply neg_not_NaN.
Qed.

(* ================================================================== *)
(** * The option values that end in a plus sign *)

Lemma five_is_literal : StrDecimalLiteral "5".
Proof.
  apply Literal_unsigned. apply (Literal_integer "5" "").
  - split; [discriminate|]. simpl. tauto.
  - now left.
Qed.

Lemma finite_inject_Z (z : Z) : finite (inject_Z z) = ofZ z.
Proof.
  unfold finite, ofZ, inject_Z, Qred. f_equal.
  pose proof (Z.ggcd_gcd z 1) as Hg.
  pose proof (Z.ggcd_correct_divisors z 1) as Hd.
  destruct (Z.ggcd z 1) as [g [a b]]. simpl in Hg, Hd |- *.
  rewrite Z.gcd_1_r in Hg. subst g. destruct Hd as [Ha Hb].
  rewrite Z.mul_1_l in Ha, Hb. now subst a b.
Qed.

(** A run of digits followed by text that does not continue it parses to
    the value of the digits. *)
Lemma parseFloat_digits (d rest : string) :
  DecimalDigits d -> nonNumericStart rest ->
  parseFloat (d ++ rest) = ofZ (digitsValue 0 d).
Proof.
  intros Hd Hrest. pose proof Hd as [Hne Hall].
  destruct d as [|h t]; [congruence|]. destruct Hall as [Hh _].
  change (String h t ++ rest) with (String h (t ++ rest)).
  rewrite parseFloat_unsigned_head by now left.
  change (String h (t ++ rest)) with (String h t ++ rest).
  rewrite (parseUnsigned_digits (String h t) rest "" rest Hd
             (nonNumericStart_nonDigit _ Hrest)
             (spanFraction_no_point _ Hrest)).
  rewrite append_empty_r.
  assert (He : exponentPart rest = 0%Z)
    by exact (proj1 (exponentPart_app "" rest (or_introl eq_refl) Hrest)).
  rewrite He. unfold decimalValue. rewrite <- finite_inject_Z.
  apply finite_eq. simpl. ring.
Qed.

(** C3. [parseFloat] reads the longest numeric prefix: "5+" gives 5, "4+"
    gives 4 and "3+" gives 3, which are the values the valuation uses for
    bedroomCount, bathroomCount and parkingSpaces; in general, digits
    followed by text that does not continue them parse to their value, and
    text that follows a decimal literal without continuing it is ignored. *)
Theorem parseFloat_leading_prefix :
  parseFloat "5+" = ofZ 5
  /\ parseFloat "4+" = ofZ 4
  /\ parseFloat "3+" = ofZ 3
  /\ (forall data, bedroomCount data = "5+" -> bedroomValue data = ofZ 5)
  /\ (forall data, bathroomCount data = "4+" -> bathroomValue data = ofZ 4)
  /\ (forall data, parkingSpaces data = "3+" -> parkingValue data = ofZ 3)
  /\ (forall digits rest,
        DecimalDigits digits -> nonNumericStart rest ->
        parseFloat (digits ++ rest) = ofZ (digitsValue 0 digits))
  /\ (forall literal rest,
        StrDecimalLiteral literal -> nonNumericStart rest ->
        parseFloat (literal ++ rest) = parseFloat literal
        /\ parseFloat literal <> NaN).
Proof.
  split; [vm_compute; reflexivity|].
  split; [vm_compute; reflexivity|].
  split; [vm_compute; reflexivity|].
  split; [|split; [|split; [|split]]].
  - intros data H. unfold bedroomValue. rewrite H. vm_compute. reflexivity.
  - intros data H. unfold bathroomValue. rewrite H. vm_compute. reflexivity.
  - intros data H. unfold parkingValue. rewrite H. vm_compute. reflexivity.
  - exact parseFloat_digits.
  - exact parseFloat_literal_app.
Qed.

Lemma parseFloat_leading_prefix_witness :
  bedroomValue (updateField BedroomCount "5+" exampleProperty) = ofZ 5
  /\ parseFloat ("5" ++ "+") = parseFloat "5".
Proof.
  destruct parseFloat_leading_prefix as (_ & _ & _ & Hbed & _ & _ & _ & Happ).
  split.
  - apply Hbed. reflexivity.
  - apply (Happ "5" "+").
    + exact five_is_literal.
    + simpl. split; [reflexivity|]. split; [|split]; discriminate.
Defined.

(** The claim that "5+" parses to [NaN] does not hold. *)
Lemma bedroomCount_5plus_not_NaN : parseFloat "5+" <> NaN.
Proof. vm_compute. discriminate. Qed.

(** C4, as amended. Whenever bedroomCount is the option "5+", the parsed
    bedroom value is the number 5 (so the bedroom component is 125000),
    not [NaN]. *)
Theorem bedroomCount_5plus_parses_to_5 (data : PropertyAttributes) :
  bedroomCount data = "5+" ->
  bedroomValue data = ofZ 5
  /\ bedroomValue data <> NaN
  /\ bedroomComponent data = ofZ 125000.
Proof.
  intros H. unfold bedroomComponent, bedroomValue. rewrite H.
  split; [vm_compute; reflexivity|].
  split; [vm_compute; discriminate|vm_compute; reflexivity].
Qed.

Lemma bedroomCount_5plus_parses_to_5_witness :
  bedroomValue (updateField BedroomCount "5+" exampleProperty) = ofZ 5
  /\ bedroomValue (updateField BedroomCount "5+" exampleProperty) <> NaN
  /\ bedroomComponent (updateField BedroomCount "5+" exampleProperty)
     = ofZ 125000.
Proof.
  apply (bedroomCount_5plus_parses_to_5
           (updateField BedroomCount "5+" exampleProperty)).
  reflexivity.
Defined.

(* ================================================================== *)
(** * The location factor *)


(** The default applies to every zone that names no property of
    [LOCATION_FACTORS], own or inherited; the empty string is one. *)
Lemma locationFactor_default (data : PropertyAttributes) :
  ownProperty LOCATION_FACTORS (geographicZone data) = None ->
  ownProperty Object_prototype (geographicZone data) = None ->
  locationFactor data = Number (finite 1.0).
Proof.
  intros Hown Hproto. unfold locationFactor, getProperty.
  now rewrite Hown, Hproto.
Qed.






(* ================================================================== *)
(** * The completeness check *)

Lemma notString_true (s : string) : notString s = true <-> s = "".
Proof. destruct s; simpl; split; congruence. Qed.

Lemma fieldKey_injective (f g : FieldName) : fieldKey f = fieldKey g -> f = g.
Proof. destruct f, g; simpl; intros H; try reflexivity; discriminate H. Qed.

Lemma NoDup_map_injective {A B : Type} (f : A -> B) (l : list A) :
  (forall x y, f x = f y -> x = y) -> NoDup l -> NoDup (map f l).
Proof.
  intros Hinj Hl. induction Hl as [|x l Hx Hl IH]; simpl; constructor.
  - intros Hin. apply in_map_iff in Hin as (y & Hy & Hin).
    apply Hinj in Hy. now subst y.
  - exact IH.
Qed.

Lemma allFields_complete (f : FieldName) : In f allFields.
Proof. destruct f; simpl; tauto. Qed.

Lemma allFields_NoDup : NoDup allFields.
Proof.
  unfold allFields.
  repeat (constructor; [simpl; intuition discriminate|]). constructor.
Qed.

(** The invalid fields are the empty ones, in the order of the record. *)
Lemma invalidFields_filter (data : PropertyAttributes) :
  invalidFields (validateFormCompletion data)
  = map fieldKey (filter (fun f => notString (field data f)) allFields).
Proof.
  unfold validateFormCompletion, validationMap. simpl.
  destruct (notString (livingArea data)), (notString (bedroomCount data)),
    (notString (bathroomCount data)), (notString (geographicZone data)),
    (notString (constructionYear data)), (notString (parkingSpaces data));
    reflexivity.
Qed.

Lemma isValid_iff_nil (data : PropertyAttributes) :
  isValid (validateFormCompletion data) = true
  <-> invalidFields (validateFormCompletion data) = [].
Proof.
  unfold validateFormCompletion. cbn [isValid invalidFields].
  destruct (map fst _); simpl; split; congruence.
Qed.

Lemma isValid_iff_filled (data : PropertyAttributes) :
  isValid (validateFormCompletion data) = true
  <-> forall f, field data f <> "".
Proof.
  rewrite isValid_iff_nil, invalidFields_filter. split.
  - intros Hnil f Hf.
    assert (Hin : In (fieldKey f)
              (map fieldKey
                 (filter (fun f => notString (field data f)) allFields))).
    { apply in_map, filter_In. split; [apply allFields_complete|].
      now apply notString_true. }
    rewrite Hnil in Hin. exact Hin.
  - intros Hall.
    destruct (filter (fun f => notString (field data f)) allFields)
      as [|f l] eqn:E; [reflexivity|].
    assert (Hin : In f (f :: l)) by now left.
    rewrite <- E in Hin. apply filter_In in Hin as [_ Hf].
    apply notString_true in Hf. now apply Hall in Hf.
Qed.

(** C2. The completeness check lists exactly the names of the fields whose
    value is the empty string, each once; it answers valid exactly when the
    six fields are all non-empty, and exactly then the list is empty; and
    its answer depends on the values only through their being empty or not,
    so no non-empty value is inspected any further. *)
Theorem validateFormCompletion_spec (data : PropertyAttributes) :
  (forall name,
      In name (invalidFields (validateFormCompletion data))
      <-> exists f, name = fieldKey f /\ field data f = "")
  /\ NoDup (invalidFields (validateFormCompletion data))
  /\ (isValid (validateFormCompletion data) = true
      <-> forall f, field data f <> "")
  /\ (isValid (validateFormCompletion data) = false
      <-> exists f, field data f = "")
  /\ (isValid (validateFormCompletion data) = true
      <-> invalidFields (validateFormCompletion data) = [])
  /\ (forall other,
        (forall f, field other f = "" <-> field data f = "") ->
        validateFormCompletion other = validateFormCompletion data).
Proof.
  split; [|split; [|split; [|split; [|split]]]].
  - intros name. rewrite invalidFields_filter, in_map_iff. split.
    + intros (f & <- & Hf). apply filter_In in Hf as [_ Hf].
      exists f. split; [reflexivity|now apply notString_true].
    + intros (f & -> & Hf). exists f. split; [reflexivity|].
      apply filter_In. split; [apply allFields_complete|].
      now apply notString_true.
  - rewrite invalidFields_filter.
    apply NoDup_map_injective; [exact fieldKey_injective|].
    apply NoDup_filter, allFields_NoDup.
  - apply isValid_iff_filled.
  - split.
    + intros Hfalse.
      destruct (invalidFields (validateFormCompletion data)) as [|n l] eqn:E.
      * apply isValid_iff_nil in E. congruence.
      * rewrite invalidFields_filter in E.
        destruct (filter (fun f => notString (field data f)) allFields)
          as [|f fs] eqn:Ef; [discriminate|].
        assert (Hin : In f (f :: fs)) by now left.
        rewrite <- Ef in Hin. apply filter_In in Hin as [_ Hf].
        exists f. now apply notString_true.
    + intros (f & Hf).
      destruct (isValid (validateFormCompletion data)) eqn:E; [|reflexivity].
      apply isValid_iff_filled with (f := f) in E. contradiction.
  - apply isValid_iff_nil.
  - intros other Hsame.
    assert (E : forall f, notString (field other f) = notString (field data f)).
    { intros f. specialize (Hsame f).
      destruct (field other f), (field data f); simpl; try reflexivity;
        destruct Hsame as [H1 H2].
      - now specialize (H1 eq_refl).
      - now specialize (H2 eq_refl). }
    unfold validateFormCompletion, validationMap.
    pose proof (E LivingArea) as E1. pose proof (E BedroomCount) as E2.
    pose proof (E BathroomCount) as E3. pose proof (E GeographicZone) as E4.
    pose proof (E ConstructionYear) as E5. pose proof (E ParkingSpaces) as E6.
    simpl in E1, E2, E3, E4, E5, E6.
    now rewrite E1, E2, E3, E4, E5, E6.
Qed.

Lemma validateFormCompletion_spec_witness :
  validateFormCompletion
    (updateField LivingArea "many" (updateField ParkingSpaces "" exampleProperty))
  = validateFormCompletion (updateField ParkingSpaces "" exampleProperty)
  /\ In "parkingSpaces"
       (invalidFields
          (validateFormCompletion
             (updateField ParkingSpaces "" exampleProperty))).
Proof.
  destruct (validateFormCompletion_spec
              (updateField ParkingSpaces "" exampleProperty))
    as (Hin & _ & _ & _ & _ & Hsame).
  split.
  - apply Hsame. intros f. destruct f; simpl; split; intros H;
      try reflexivity; try discriminate H; exact H.
  - apply Hin. exists ParkingSpaces. split; reflexivity.
Defined.

(* ================================================================== *)
(** * [NaN] through the formula *)

Lemma baseValuation_NaN (data : PropertyAttributes) :
  parseFloat (livingArea data) = NaN
  \/ parseFloat (bedroomCount data) = NaN
  \/ parseFloat (bathroomCount data) = NaN
  \/ parseFloat (constructionYear data) = NaN
  \/ parseFloat (parkingSpaces data) = NaN ->
  baseValuation data = NaN.
Proof.
  unfold baseValuation, areaComponent, bedroomComponent, bathroomComponent,
    parkingComponent, ageComponent, propertyAge, livingAreaValue, bedroomValue,
    bathroomValue, parkingValue.
  intros [H|[H|[H|[H|H]]]]; rewrite H;
    rewrite ?sub_NaN_r, ?mul_NaN_l, ?Math_max_NaN_r, ?add_NaN_r, ?add_NaN_l,
      ?sub_NaN_l, ?sub_NaN_r;
    reflexivity.
Qed.

Lemma finalValuation_NaN (data : PropertyAttributes) (random : Q) :
  baseValuation data = NaN ->
  adjustedValuation data = NaN
  /\ volatilityRange data random = NaN
  /\ finalValuation data random = NaN.
Proof.
  intros H.
  assert (Ha : adjustedValuation data = NaN)
    by (unfold adjustedValuation; now rewrite H).
  unfold finalValuation, volatilityRange. rewrite Ha. repeat split.
Qed.

(* ================================================================== *)
(** * Events *)

Lemma run_preserves (P : AppState -> Prop) :
  (forall s e s', P s -> dispatch s e = Some s' -> P s') ->
  forall events s s', P s -> run s events = Some s' -> P s'.
Proof.
  intros Hstep. induction events as [|e events IH]; intros s s' Hs Hrun.
  - simpl in Hrun. now injection Hrun as <-.
  - simpl in Hrun. destruct (dispatch s e) as [s1|] eqn:He; [|discriminate].
    eapply IH; [|exact Hrun]. eapply Hstep; eauto.
Qed.

Lemma reachable_invariant (P : AppState -> Prop) :
  P initialState ->
  (forall s e s', P s -> dispatch s e = Some s' -> P s') ->
  forall s, reachable s -> P s.
Proof.
  intros Hinit Hstep s [events Hrun]. eapply run_preserves; eauto.
Qed.

Lemma submit_enabled (s : AppState) :
  submitDisabled s = false ->
  isValid (validationStatus s) = true /\ isCalculating s = false.
Proof.
  unfold submitDisabled. intros H. apply orb_false_iff in H as [Hv Hc].
  now apply negb_false_iff in Hv.
Qed.

(** The flag is raised exactly while one callback is pending. *)
Lemma in_flight_invariant (s : AppState) :
  reachable s ->
  (isCalculating s = true /\ exists data, timeouts s = [data])
  \/ (isCalculating s = false /\ timeouts s = []).
Proof.
  revert s. apply reachable_invariant; [now right|].
  intros s e s' Hs He. destruct e as [name v| |random]; simpl in He.
  - destruct (offers name v); [|discriminate]. injection He as <-. exact Hs.
  - injection He as <-. destruct (submitDisabled s) eqn:Hd; [exact Hs|].
    apply submit_enabled in Hd as [Hv Hc]. unfold handleFormSubmission.
    rewrite Hv. left. split; [reflexivity|].
    destruct Hs as [[Ht _]|[_ Ht]]; [congruence|].
    exists (propertyData s). simpl. now rewrite Ht.
  - destruct (timeouts s) as [|data later] eqn:Ht; [discriminate|].
    destruct (Qle_bool 0 random && negb (Qle_bool 1 random)); [|discriminate].
    injection He as <-. right. split; [reflexivity|]. simpl.
    destruct Hs as [[_ [d Hd]]|[_ Hd]]; congruence.
Qed.

Lemma random_in_range (random : Q) :
  0 <= random < 1 ->
  Qle_bool 0 random && negb (Qle_bool 1 random) = true.
Proof.
  intros [H0 H1]. apply andb_true_iff. split; [now apply Qle_bool_iff|].
  apply negb_true_iff. destruct (Qle_bool 1 random) eqn:E; [|reflexivity].
  apply Qle_bool_iff in E. lra.
Qed.

(** C7. A string with no leading numeric prefix parses to [NaN]; when one of
    the five parsed attributes is such a string, the base, adjusted and final
    valuations are all [NaN]; and the submission path does not stop it: with
    the form complete and no calculation pending, submitting starts the
    calculation and, once the delay has elapsed, [NaN] is the stored result
    and the result panel is shown. *)
Theorem NaN_propagates_to_display :
  (forall text, ~ hasNumericPrefix text -> parseFloat text = NaN)
  /\ forall data : PropertyAttributes,
       ~ hasNumericPrefix (livingArea data)
       \/ ~ hasNumericPrefix (bedroomCount data)
       \/ ~ hasNumericPrefix (bathroomCount data)
       \/ ~ hasNumericPrefix (constructionYear data)
       \/ ~ hasNumericPrefix (parkingSpaces data) ->
       baseValuation data = NaN
       /\ adjustedValuation data = NaN
       /\ (forall random,
             volatilityRange data random = NaN
             /\ finalValuation data random = NaN)
       /\ forall (s : AppState) (random : Q),
            propertyData s = data ->
            isValid (validationStatus s) = true ->
            isCalculating s = false ->
            timeouts s = [] ->
            0 <= random < 1 ->
            exists pending shown,
              dispatch s Submit = Some pending
              /\ isCalculating pending = true
              /\ dispatch pending (TimeoutElapsed random) = Some shown
              /\ estimatedValue shown = Some NaN
              /\ resultShown shown = true.
Proof.
  split; [intros text H; now apply parseFloat_NaN_iff|].
  intros data Hdata.
  assert (Hbase : baseValuation data = NaN).
  { apply baseValuation_NaN. rewrite !parseFloat_NaN_iff. exact Hdata. }
  split; [exact Hbase|].
  split; [exact (proj1 (finalValuation_NaN data 0 Hbase))|].
  split; [intros random; exact (proj2 (finalValuation_NaN data random Hbase))|].
  intros s random Hs Hv Hc Ht Hr.
  exists (executeValuationAlgorithm data s).
  exists (timeoutCallback data random
            {| propertyData := propertyData s;
               estimatedValue := estimatedValue s;
               isCalculating := true;
               timeouts := [] |}).
  split.
  - simpl. unfold submitDisabled, handleFormSubmission.
    now rewrite Hv, Hc, Hs.
  - split; [reflexivity|]. split.
    + simpl. rewrite Ht. simpl. now rewrite (random_in_range _ Hr).
    + unfold resultShown. simpl.
      destruct (finalValuation_NaN data random Hbase) as (_ & _ & ->).
      split; reflexivity.
Qed.

Lemma NaN_propagates_to_display_witness :
  finalValuation (updateField BedroomCount "many" exampleProperty) 0.5 = NaN.
Proof.
  apply (proj2 NaN_propagates_to_display
           (updateField BedroomCount "many" exampleProperty)).
  right. left. apply parseFloat_NaN_iff. vm_compute. reflexivity.
Defined.

(* ================================================================== *)
(** * Editing a field *)

Lemma result_stays_cleared (events : list Event) :
  Forall (fun e => match e with TimeoutElapsed _ => False | _ => True end)
    events ->
  forall s s',
    estimatedValue s = None -> run s events = Some s' ->
    estimatedValue s' = None.
Proof.
  induction 1 as [|e events He _ IH]; intros s s' Hs Hrun; simpl in Hrun.
  - now injection Hrun as <-.
  - destruct (dispatch s e) as [s1|] eqn:Hd; [|discriminate].
    apply (IH s1 s'); [|exact Hrun].
    destruct e as [name v| |random]; simpl in Hd; [| |contradiction].
    + destruct (offers name v); [|discriminate]. now injection Hd as <-.
    + injection Hd as <-. destruct (submitDisabled s); [exact Hs|].
      unfold handleFormSubmission.
      destruct (isValid (validationStatus s)); exact Hs.
Qed.

(** C8. Handling a change of any field to any value stores the new value and
    clears the stored result in the same step, so the result panel is not
    shown; and the result stays cleared through any further edits and uses
    of the submit control, until a scheduled callback delivers a value. *)
Theorem field_edit_clears_result (s : AppState) (name : FieldName)
    (v : string) :
  estimatedValue (handleFieldChange name v s) = None
  /\ resultShown (handleFieldChange name v s) = false
  /\ propertyData (handleFieldChange name v s)
     = updateField name v (propertyData s)
  /\ (forall s', dispatch s (Change name v) = Some s' ->
                 estimatedValue s' = None)
  /\ forall events s',
       Forall (fun e => match e with TimeoutElapsed _ => False | _ => True end)
         events ->
       run (handleFieldChange name v s) events = Some s' ->
       estimatedValue s' = None.
Proof.
  split; [reflexivity|]. split; [reflexivity|]. split; [reflexivity|]. split.
  - intros s' H. simpl in H. destruct (offers name v); [|discriminate].
    now injection H as <-.
  - intros events s' Hev Hrun.
    now apply (result_stays_cleared events Hev (handleFieldChange name v s)).
Qed.

Lemma field_edit_clears_result_witness :
  exists s',
    run (handleFieldChange BedroomCount "4"
           {| propertyData := exampleProperty;
              estimatedValue := Some (ofZ 609000);
              isCalculating := false;
              timeouts := [] |})
        [Change ParkingSpaces "1"; Submit; Submit] = Some s'
    /\ estimatedValue s' = None.
Proof.
  eexists. split; [vm_compute; reflexivity|].
  apply (proj2 (proj2 (proj2 (proj2
           (field_edit_clears_result
              {| propertyData := exampleProperty;
                 estimatedValue := Some (ofZ 609000);
                 isCalculating := false;
                 timeouts := [] |} BedroomCount "4"))))
           [Change ParkingSpaces "1"; Submit; Submit]).
  - repeat constructor.
  - vm_compute. reflexivity.
Defined.

(** A callback scheduled before an edit still delivers afterwards, with the
    value of the attributes it captured. *)
Lemma pending_callback_delivers_after_edit :
  exists s,
    run {| propertyData := exampleProperty;
           estimatedValue := None;
           isCalculating := false;
           timeouts := [] |}
        [Submit; Change LivingArea "1"; TimeoutElapsed 0.5] = Some s
    /\ livingArea (propertyData s) = "1"
    /\ estimatedValue s = Some (ofZ 609000).
Proof. eexists. split; [vm_compute; reflexivity|]. split; reflexivity. Qed.

(* ================================================================== *)
(** * The submit control *)

Lemma validationStatus_filled (s : AppState) :
  isValid (validationStatus s) = true
  <-> forall f, field (propertyData s) f <> "".
Proof. apply isValid_iff_filled. Qed.

Lemma submit_pending (s : AppState) :
  isCalculating s = true -> dispatch s Submit = Some s.
Proof.
  intros H. simpl. unfold submitDisabled. rewrite H, orb_true_r. reflexivity.
Qed.

Lemma submit_incomplete (s : AppState) :
  (exists f, field (propertyData s) f = "") -> dispatch s Submit = Some s.
Proof.
  intros Hf. simpl. unfold submitDisabled.
  destruct (isValid (validationStatus s)) eqn:Hv; [|reflexivity].
  destruct Hf as [f Hf].
  now destruct (proj1 (validationStatus_filled s) Hv f).
Qed.

(** C9. While a calculation is pending, using the submit control any number
    of times leaves the whole state as it is: no callback is added and the
    result does not change.  With a field empty the control is inert too.
    The only thing a submission can do is start a calculation on the current
    attributes, and that only when all six fields are non-empty and none is
    pending; so in every reachable state at most one calculation is in
    flight. *)
Theorem submit_control_gating (s : AppState) :
  (isCalculating s = true -> forall n, run s (repeat Submit n) = Some s)
  /\ ((exists f, field (propertyData s) f = "") ->
      dispatch s Submit = Some s)
  /\ (forall s', dispatch s Submit = Some s' ->
        s' = s
        \/ (isCalculating s = false
            /\ (forall f, field (propertyData s) f <> "")
            /\ s' = executeValuationAlgorithm (propertyData s) s))
  /\ (reachable s ->
      (List.length (timeouts s) <= 1)%nat
      /\ (isCalculating s = true <-> timeouts s <> [])).
Proof.
  split; [|split; [|split]].
  - intros Hc n. induction n as [|n IH]; [reflexivity|].
    cbn [repeat run]. now rewrite (submit_pending s Hc).
  - apply submit_incomplete.
  - intros s' H. simpl in H. injection H as <-.
    destruct (submitDisabled s) eqn:Hd; [now left|].
    apply submit_enabled in Hd as [Hv Hc]. right.
    unfold handleFormSubmission. rewrite Hv.
    split; [exact Hc|]. split; [|reflexivity]. now apply validationStatus_filled.
  - intros Hs.
    destruct (in_flight_invariant s Hs) as [[Hc [d Hd]]|[Hc Ht]].
    + rewrite Hd, Hc. simpl. split; [lia|]. split; [discriminate|reflexivity].
    + rewrite Ht, Hc. simpl. split; [lia|]. split; [discriminate|congruence].
Qed.

Lemma submit_control_gating_witness :
  run {| propertyData := exampleProperty;
         estimatedValue := Some (ofZ 609000);
         isCalculating := true;
         timeouts := [exampleProperty] |}
      (repeat Submit 3)
  = Some {| propertyData := exampleProperty;
            estimatedValue := Some (ofZ 609000);
            isCalculating := true;
            timeouts := [exampleProperty] |}.
Proof.
  apply (proj1 (submit_control_gating
                  {| propertyData := exampleProperty;
                     estimatedValue := Some (ofZ 609000);
                     isCalculating := true;
                     timeouts := [exampleProperty] |})).
  reflexivity.
Defined.

(** The handler by itself does not look at the flag: the gate is the
    [disabled] attribute of the button. *)
Lemma handleFormSubmission_not_gated :
  timeouts
    (handleFormSubmission
       {| propertyData := exampleProperty;
          estimatedValue := None;
          isCalculating := true;
          timeouts := [exampleProperty] |})
  = [exampleProperty; exampleProperty].
Proof. reflexivity. Qed.

(* ================================================================== *)
(** * The parking select *)

Lemma inStrings_In (v : string) (l : list string) :
  inStrings v l = true -> In v l.
Proof.
  unfold inStrings. intros H. apply existsb_exists in H as (x & Hx & E).
  apply String.eqb_eq in E. now subst x.
Qed.

Lemma parkingSpaces_invariant (s : AppState) :
  reachable s ->
  In (parkingSpaces (propertyData s)) [""; "0"; "1"; "2"; "3"]
  /\ Forall (fun data => In (parkingSpaces data) ["0"; "1"; "2"; "3"])
       (timeouts s).
Proof.
  revert s. apply reachable_invariant.
  - split; [now left|constructor].
  - intros s e s' [Hp Ht] He. destruct e as [name v| |random]; simpl in He.
    + destruct (offers name v) eqn:Ho; [|discriminate]. injection He as <-.
      split; [|exact Ht].
      destruct name; try exact Hp.
      change (offers ParkingSpaces v)
        with (inStrings v (map fst parkingOptions)) in Ho.
      apply inStrings_In in Ho. exact Ho.
    + injection He as <-. destruct (submitDisabled s) eqn:Hd; [now split|].
      apply submit_enabled in Hd as [Hv Hc]. unfold handleFormSubmission.
      rewrite Hv. split; [exact Hp|]. simpl. apply Forall_app. split; [exact Ht|].
      constructor; [|constructor].
      pose proof (proj1 (validationStatus_filled s) Hv ParkingSpaces) as Hne.
      simpl in Hne.
      destruct Hp as [Hp|Hp]; [congruence|exact Hp].
    + destruct (timeouts s) as [|data later] eqn:E; [discriminate|].
      destruct (Qle_bool 0 random && negb (Qle_bool 1 random)); [|discriminate].
      injection He as <-. split; [exact Hp|]. simpl. now inversion Ht.
Qed.

(** C10. In every reachable state the stored parkingSpaces is one of "",
    "0", "1", "2" and "3", hence never "3+"; this holds as well of the
    attributes captured by a pending calculation, so every value the
    algorithm delivers is computed from the attributes at the head of the
    queue, whose parkingSpaces is other than "3+".  The
    option labelled "3+" carries the value "3", no option carries "3+", and
    the initial and the reset value are the empty string. *)
Theorem parkingSpaces_never_3plus :
  (forall s, reachable s ->
     In (parkingSpaces (propertyData s)) [""; "0"; "1"; "2"; "3"]
     /\ parkingSpaces (propertyData s) <> "3+")
  /\ (forall s, reachable s ->
        Forall (fun data => parkingSpaces data <> "3+") (timeouts s))
  /\ (forall s random s',
        reachable s -> dispatch s (TimeoutElapsed random) = Some s' ->
        exists data later,
          timeouts s = data :: later
          /\ parkingSpaces data <> "3+"
          /\ estimatedValue s' = Some (finalValuation data random))
  /\ In ("3", "3+") parkingOptions
  /\ (forall v label, In (v, label) parkingOptions -> v <> "3+")
  /\ parkingSpaces initialPropertyData = ""
  /\ parkingSpaces resetForm = "".
Proof.
  assert (Hfour : forall v, In v ["0"; "1"; "2"; "3"] -> v <> "3+").
  { intros v Hv ->. simpl in Hv. intuition discriminate. }
  split; [|split; [|split; [|split; [|split; [|split]]]]].
  - intros s Hs. destruct (parkingSpaces_invariant s Hs) as [Hp _].
    split; [exact Hp|]. intros E. rewrite E in Hp. simpl in Hp.
    intuition discriminate.
  - intros s Hs. destruct (parkingSpaces_invariant s Hs) as [_ Ht].
    eapply Forall_impl; [|exact Ht]. intros data. apply Hfour.
  - intros s random s' Hs Hd.
    destruct (parkingSpaces_invariant s Hs) as [_ Ht]. simpl in Hd.
    destruct (timeouts s) as [|data later]; [discriminate|].
    destruct (Qle_bool 0 random && negb (Qle_bool 1 random)); [|discriminate].
    injection Hd as <-. exists data, later. split; [reflexivity|].
    split; [|reflexivity]. apply Hfour. now inversion Ht.
  - simpl. tauto.
  - intros v label Hin ->. simpl in Hin.
    repeat (destruct Hin as [Hin|Hin]; [discriminate Hin|]). exact Hin.
  - reflexivity.
  - reflexivity.
Qed.

Lemma parkingSpaces_never_3plus_witness :
  parkingSpaces (updateField ParkingSpaces "3" initialPropertyData) <> "3+".
Proof.
  apply (proj1 parkingSpaces_never_3plus
           (handleFieldChange ParkingSpaces "3" initialState)).
  exists [Change ParkingSpaces "3"]. reflexivity.
Defined.

(* ================================================================== *)
(** * Further properties of the form state *)

Lemma FieldName_eq_dec (f g : FieldName) : {f = g} + {f <> g}.
Proof. decide equality. Qed.

Lemma field_updateField (f g : FieldName) (v : string)
    (prev : PropertyAttributes) :
  field (updateField f v prev) g
  = if FieldName_eq_dec f g then v else field prev g.
Proof.
  destruct (FieldName_eq_dec f g) as [<-|Hne].
  - now destruct f.
  - destruct f, g; try reflexivity; congruence.
Qed.

(** X1. Reading a field after [updateField] gives the value written when it
    is the field written, and what was there before when it is another. *)
Theorem updateField_lookup (f : FieldName) (v : string)
    (prev : PropertyAttributes) :
  field (updateField f v prev) f = v
  /\ forall g, g <> f -> field (updateField f v prev) g = field prev g.
Proof.
  split.
  - rewrite field_updateField. now destruct (FieldName_eq_dec f f).
  - intros g Hg. rewrite field_updateField.
    destruct (FieldName_eq_dec f g); [congruence|reflexivity].
Qed.

Lemma PropertyAttributes_ext (a b : PropertyAttributes) :
  (forall f, field a f = field b f) -> a = b.
Proof.
  intros H. destruct a, b.
  pose proof (H LivingArea). pose proof (H BedroomCount).
  pose proof (H BathroomCount). pose proof (H GeographicZone).
  pose proof (H ConstructionYear). pose proof (H ParkingSpaces).
  simpl in *. congruence.
Qed.

(** X2. Of two writes to one field the later wins, writes to different
    fields can be exchanged, and writing back the value a field holds
    changes nothing. *)
Theorem updateField_algebra (f g : FieldName) (v w : string)
    (prev : PropertyAttributes) :
  updateField f w (updateField f v prev) = updateField f w prev
  /\ (f <> g ->
      updateField f v (updateField g w prev)
      = updateField g w (updateField f v prev))
  /\ updateField f (field prev f) prev = prev.
Proof.
  split; [|split].
  - now destruct f.
  - intros Hne. destruct f, g; try reflexivity; congruence.
  - destruct prev. now destruct f.
Qed.

Lemma updateField_algebra_witness :
  updateField LivingArea "1800" (updateField ParkingSpaces "1" exampleProperty)
  = updateField ParkingSpaces "1" (updateField LivingArea "1800" exampleProperty).
Proof.
  apply (proj1 (proj2 (updateField_algebra LivingArea ParkingSpaces
                         "1800" "1" exampleProperty))).
  discriminate.
Defined.

(** X3. The invalid fields come in the order the fields are declared: they
    are the declared names, filtered by emptiness; so their number is the
    number of empty fields, and the blank form lists all six. *)
Theorem invalidFields_in_declared_order (data : PropertyAttributes) :
  invalidFields (validateFormCompletion data)
  = map fieldKey (filter (fun f => notString (field data f)) allFields)
  /\ List.length (invalidFields (validateFormCompletion data))
     = List.length (filter (fun f => notString (field data f)) allFields)
  /\ invalidFields (validateFormCompletion initialPropertyData)
     = map fieldKey allFields
  /\ validateFormCompletion resetForm
     = validateFormCompletion initialPropertyData.
Proof.
  split; [apply invalidFields_filter|].
  split; [now rewrite invalidFields_filter, length_map|].
  split; reflexivity.
Qed.

(** X4. After a write the form is complete exactly when the value written is
    non-empty and so is every other field; in particular clearing a field
    always disables the submit control. *)
Theorem isValid_after_updateField (f : FieldName) (v : string)
    (prev : PropertyAttributes) :
  (isValid (validateFormCompletion (updateField f v prev)) = true
   <-> v <> "" /\ forall g, g <> f -> field prev g <> "")
  /\ forall s, submitDisabled (handleFieldChange f "" s) = true.
Proof.
  split.
  - rewrite isValid_iff_filled. split.
    + intros H. split.
      * specialize (H f). rewrite field_updateField in H.
        now destruct (FieldName_eq_dec f f).
      * intros g Hg. specialize (H g). rewrite field_updateField in H.
        destruct (FieldName_eq_dec f g); [congruence|assumption].
    + intros [Hv Hrest] g. rewrite field_updateField.
      destruct (FieldName_eq_dec f g) as [<-|Hne]; [assumption|].
      apply Hrest. congruence.
  - intros s. unfold submitDisabled.
    destruct (isValid (validationStatus (handleFieldChange f "" s))) eqn:E;
      [|reflexivity].
    apply (proj1 (validationStatus_filled _)) with (f := f) in E.
    exfalso. apply E. simpl. rewrite field_updateField.
    now destruct (FieldName_eq_dec f f).
Qed.

(* ================================================================== *)
(** * Further properties of the calculation life cycle *)

Lemma random_range_inv (random : Q) :
  Qle_bool 0 random && negb (Qle_bool 1 random) = true ->
  0 <= random < 1.
Proof.
  intros H. apply andb_true_iff in H as [H0 H1].
  apply Qle_bool_iff in H0. apply negb_true_iff in H1. split; [assumption|].
  apply Qnot_le_lt. intros Hc. apply Qle_bool_iff in Hc. congruence.
Qed.

(** What is captured for a calculation, and what a stored result was
    computed from, are attributes as the controls leave them. *)
Lemma snapshot_invariant (s : AppState) :
  reachable s ->
  (forall f, offers f (field (propertyData s) f) = true)
  /\ Forall fromControls (timeouts s)
  /\ forall v, estimatedValue s = Some v ->
       exists data random,
         fromControls data /\ 0 <= random < 1
         /\ v = finalValuation data random.
Proof.
  revert s. apply reachable_invariant.
  - split; [intros f; now destruct f|]. split; [constructor|discriminate].
  - intros s e s' (Ho & Ht & Hv) He.
    destruct e as [name v| |random]; simpl in He.
    + destruct (offers name v) eqn:Hname; [|discriminate].
      injection He as <-. split; [|split; [exact Ht|discriminate]].
      intros f. simpl. rewrite field_updateField.
      destruct (FieldName_eq_dec name f) as [<-|_]; [assumption|apply Ho].
    + injection He as <-.
      destruct (submitDisabled s) eqn:Hd; [now repeat split|].
      apply submit_enabled in Hd as [Hvalid _]. unfold handleFormSubmission.
      rewrite Hvalid. split; [exact Ho|]. split; [|exact Hv]. simpl.
      apply Forall_app. split; [exact Ht|]. constructor; [|constructor].
      intros f. split; [apply Ho|].
      now apply (proj1 (validationStatus_filled s) Hvalid).
    + destruct (timeouts s) as [|data later] eqn:E; [discriminate|].
      destruct (Qle_bool 0 random && negb (Qle_bool 1 random)) eqn:Hr;
        [|discriminate].
      injection He as <-. inversion Ht as [|? ? Hdata Hlater]; subst.
      split; [exact Ho|]. split; [exact Hlater|].
      intros v [= <-]. exists data, random.
      split; [exact Hdata|]. split; [now apply random_range_inv|reflexivity].
Qed.

(** X5. The algorithm only ever runs on a complete form.  In every
    reachable state each pending calculation captured six non-empty
    attributes; and of the events possible there, a change of a field leaves
    no result, a use of the submit control leaves the result as it was, and
    the elapse of the timeout stores the final valuation of the attributes
    captured by the one pending calculation, which are all non-empty, for a
    random draw in [0, 1). *)
Theorem calculations_come_from_complete_forms (s : AppState) :
  reachable s ->
  Forall (fun data => forall f, field data f <> "") (timeouts s)
  /\ forall e s', dispatch s e = Some s' ->
       match e with
       | Change _ _ => estimatedValue s' = None
       | Submit => estimatedValue s' = estimatedValue s
       | TimeoutElapsed random =>
           exists data,
             timeouts s = [data]
             /\ (forall f, field data f <> "")
             /\ 0 <= random < 1
             /\ estimatedValue s' = Some (finalValuation data random)
       end.
Proof.
  intros Hs. destruct (snapshot_invariant s Hs) as (_ & Ht & _).
  assert (Hcomplete : Forall (fun data => forall f, field data f <> "")
                        (timeouts s)).
  { eapply Forall_impl; [|exact Ht]. intros data Hd f. apply Hd. }
  split; [exact Hcomplete|].
  intros e s' Hd. destruct e as [name v| |random]; simpl in Hd.
  - destruct (offers name v); [|discriminate]. now injection Hd as <-.
  - injection Hd as <-. destruct (submitDisabled s); [reflexivity|].
    unfold handleFormSubmission.
    now destruct (isValid (validationStatus s)).
  - destruct (in_flight_invariant s Hs) as [[_ [data E]]|[_ E]];
      rewrite E in Hd, Hcomplete; [|discriminate].
    destruct (Qle_bool 0 random && negb (Qle_bool 1 random)) eqn:Hr;
      [|discriminate].
    injection Hd as <-. exists data. split; [exact E|].
    split; [now inversion Hcomplete|].
    split; [now apply random_range_inv|reflexivity].
Qed.

Lemma example_submitted_reachable :
  reachable
    (executeValuationAlgorithm exampleProperty
       {| propertyData := exampleProperty;
          estimatedValue := None;
          isCalculating := false;
          timeouts := [] |}).
Proof.
  exists [Change LivingArea "2000"; Change BedroomCount "3";
          Change BathroomCount "2"; Change GeographicZone "suburban";
          Change ConstructionYear "2010"; Change ParkingSpaces "2"; Submit].
  reflexivity.
Qed.

Lemma calculations_come_from_complete_forms_witness :
  Forall (fun data => forall f, field data f <> "")
    (timeouts
       (executeValuationAlgorithm exampleProperty
          {| propertyData := exampleProperty;
             estimatedValue := None;
             isCalculating := false;
             timeouts := [] |})).
Proof.
  exact (proj1 (calculations_come_from_complete_forms _
                  example_submitted_reachable)).
Defined.

Lemma fromControls_values (data : PropertyAttributes) :
  fromControls data ->
  (exists z, (1 <= z <= 5)%Z /\ bedroomValue data = ofZ z)
  /\ (exists k, (2 <= k <= 8)%Z /\ bathroomValue data = finite (k # 2))
  /\ (exists z, (0 <= z <= 3)%Z /\ parkingValue data = ofZ z)
  /\ (locationFactor data = Number (finite 1.4)
      \/ locationFactor data = Number (finite 1.2)
      \/ locationFactor data = Number (finite 1.0)).
Proof.
  intros H.
  destruct (H BedroomCount) as [Hbed Hbed'].
  destruct (H BathroomCount) as [Hbath Hbath'].
  destruct (H ParkingSpaces) as [Hpark Hpark'].
  destruct (H GeographicZone) as [Hzone Hzone'].
  apply inStrings_In in Hbed, Hbath, Hzone.
  change (offers ParkingSpaces (field data ParkingSpaces))
    with (inStrings (field data ParkingSpaces) (map fst parkingOptions))
    in Hpark.
  apply inStrings_In in Hpark.
  unfold bedroomValue, bathroomValue, parkingValue, locationFactor.
  simpl in Hbed, Hbath, Hpark, Hzone, Hbed', Hbath', Hpark', Hzone'.
  split; [|split; [|split]].
  - destruct Hbed as [E|[E|[E|[E|[E|[E|[]]]]]]]; try congruence; rewrite <- E.
    + exists 1%Z. split; [lia|vm_compute; reflexivity].
    + exists 2%Z. split; [lia|vm_compute; reflexivity].
    + exists 3%Z. split; [lia|vm_compute; reflexivity].
    + exists 4%Z. split; [lia|vm_compute; reflexivity].
    + exists 5%Z. split; [lia|vm_compute; reflexivity].
  - destruct Hbath as [E|[E|[E|[E|[E|[E|[E|[E|[]]]]]]]]]; try congruence;
      rewrite <- E.
    + exists 2%Z. split; [lia|vm_compute; reflexivity].
    + exists 3%Z. split; [lia|vm_compute; reflexivity].
    + exists 4%Z. split; [lia|vm_compute; reflexivity].
    + exists 5%Z. split; [lia|vm_compute; reflexivity].
    + exists 6%Z. split; [lia|vm_compute; reflexivity].
    + exists 7%Z. split; [lia|vm_compute; reflexivity].
    + exists 8%Z. split; [lia|vm_compute; reflexivity].
  - destruct Hpark as [E|[E|[E|[E|[E|[]]]]]]; try congruence; rewrite <- E.
    + exists 0%Z. split; [lia|vm_compute; reflexivity].
    + exists 1%Z. split; [lia|vm_compute; reflexivity].
    + exists 2%Z. split; [lia|vm_compute; reflexivity].
    + exists 3%Z. split; [lia|vm_compute; reflexivity].
  - destruct Hzone as [E|[E|[E|[E|[]]]]]; try congruence; rewrite <- E.
    + left. vm_compute. reflexivity.
    + right. left. vm_compute. reflexivity.
    + right. right. vm_compute. reflexivity.
Qed.

(** X6. Through the controls of the page the selects never feed the formula
    anything but numbers.  In every reachable state each pending calculation
    has a bedroom value among 1..5, a bathroom value among 1, 1.5, ..., 4, a
    parking value among 0..3 and one of the three numeric location factors;
    and when the timeout elapses, the result stored is the final valuation
    of the attributes captured by the one pending calculation, which have
    such values.  Neither [NaN] from a select option nor an inherited key of
    [LOCATION_FACTORS] can arise there. *)
Theorem select_values_are_numeric (s : AppState) :
  reachable s ->
  let numeric data :=
    (exists z, (1 <= z <= 5)%Z /\ bedroomValue data = ofZ z)
    /\ (exists k, (2 <= k <= 8)%Z /\ bathroomValue data = finite (k # 2))
    /\ (exists z, (0 <= z <= 3)%Z /\ parkingValue data = ofZ z)
    /\ (locationFactor data = Number (finite 1.4)
        \/ locationFactor data = Number (finite 1.2)
        \/ locationFactor data = Number (finite 1.0)) in
  Forall numeric (timeouts s)
  /\ forall random s',
       dispatch s (TimeoutElapsed random) = Some s' ->
       exists data,
         timeouts s = [data]
         /\ numeric data
         /\ estimatedValue s' = Some (finalValuation data random).
Proof.
  intros Hs numeric. destruct (snapshot_invariant s Hs) as (_ & Ht & _).
  assert (Hnum : Forall numeric (timeouts s)).
  { eapply Forall_impl; [|exact Ht]. intros data. apply fromControls_values. }
  split; [exact Hnum|].
  intros random s' Hd. simpl in Hd.
  destruct (in_flight_invariant s Hs) as [[_ [data E]]|[_ E]];
    rewrite E in Hd, Hnum; [|discriminate].
  destruct (Qle_bool 0 random && negb (Qle_bool 1 random)); [|discriminate].
  injection Hd as <-. exists data. split; [exact E|].
  split; [now inversion Hnum|reflexivity].
Qed.

Lemma select_values_are_numeric_witness :
  Forall
    (fun data =>
       (exists z, (1 <= z <= 5)%Z /\ bedroomValue data = ofZ z)
       /\ (exists k, (2 <= k <= 8)%Z /\ bathroomValue data = finite (k # 2))
       /\ (exists z, (0 <= z <= 3)%Z /\ parkingValue data = ofZ z)
       /\ (locationFactor data = Number (finite 1.4)
           \/ locationFactor data = Number (finite 1.2)
           \/ locationFactor data = Number (finite 1.0)))
    (timeouts
       (executeValuationAlgorithm exampleProperty
          {| propertyData := exampleProperty;
             estimatedValue := None;
             isCalculating := false;
             timeouts := [] |})).
Proof.
  exact (proj1 (select_values_are_numeric _ example_submitted_reachable)).
Defined.

(* ------------------------------------------------------------------ *)

Lemma userEvent_keeps_pending (s s' : AppState) (e : Event)
    (data : PropertyAttributes) :
  userEvent e -> timeouts s = [data] -> isCalculating s = true ->
  dispatch s e = Some s' ->
  timeouts s' = [data] /\ isCalculating s' = true
  /\ estimatedValue s' = match e with
                         | Change _ _ => None
                         | _ => estimatedValue s
                         end.
Proof.
  intros He Ht Hc Hd. destruct e as [name v| |random]; [| |contradiction].
  - simpl in Hd. destruct (offers name v); [|discriminate].
    injection Hd as <-. simpl. tauto.
  - rewrite submit_pending in Hd by assumption. injection Hd as <-. tauto.
Qed.

(** X7. A calculation once started is never cancelled or replaced and keeps
    the attributes it captured: while it is pending, edits and uses of the
    submit control leave it pending alone, and when its timeout elapses the
    result stored is the final valuation of the captured attributes, not of
    the attributes then in the form, which stay as they are. *)
Theorem pending_calculation_keeps_its_snapshot (s s' : AppState)
    (data : PropertyAttributes) (events : list Event) :
  timeouts s = [data] -> isCalculating s = true ->
  Forall userEvent events ->
  run s events = Some s' ->
  timeouts s' = [data] /\ isCalculating s' = true
  /\ forall random s'',
       dispatch s' (TimeoutElapsed random) = Some s'' ->
       estimatedValue s'' = Some (finalValuation data random)
       /\ isCalculating s'' = false
       /\ timeouts s'' = []
       /\ propertyData s'' = propertyData s'.
Proof.
  intros Ht Hc Hev. revert s Ht Hc.
  induction Hev as [|e events He _ IH]; intros s Ht Hc Hrun; simpl in Hrun.
  - injection Hrun as <-. split; [exact Ht|]. split; [exact Hc|].
    intros random s'' Hd. simpl in Hd. rewrite Ht in Hd.
    destruct (Qle_bool 0 random && negb (Qle_bool 1 random)); [|discriminate].
    injection Hd as <-. simpl. tauto.
  - destruct (dispatch s e) as [s1|] eqn:Hd; [|discriminate].
    destruct (userEvent_keeps_pending s s1 e data He Ht Hc Hd) as (Ht1 & Hc1 & _).
    now apply (IH s1).
Qed.

Lemma pending_calculation_keeps_its_snapshot_witness :
  timeouts
    (handleFieldChange LivingArea "1"
       (executeValuationAlgorithm exampleProperty
          {| propertyData := exampleProperty;
             estimatedValue := None;
             isCalculating := false;
             timeouts := [] |}))
  = [exampleProperty].
Proof.
  refine (proj1 (pending_calculation_keeps_its_snapshot
                  (executeValuationAlgorithm exampleProperty
                     {| propertyData := exampleProperty;
                        estimatedValue := None;
                        isCalculating := false;
                        timeouts := [] |})
                  _ exampleProperty [Change LivingArea "1"] _ _ _ _));
    [reflexivity|reflexivity|repeat constructor|reflexivity].
Defined.

(** X8. When the submission handler runs on a complete form with nothing
    pending, it starts the calculation on the current attributes and leaves
    the stored result and the attributes as they were, so an earlier result
    stays on display while the new one is pending; when the timeout then
    elapses, the result is replaced by the final valuation of those
    attributes, the flag drops and nothing is left pending. *)
Theorem handleFormSubmission_then_timeout (s : AppState) (random : Q) :
  isValid (validationStatus s) = true ->
  timeouts s = [] ->
  0 <= random < 1 ->
  estimatedValue (handleFormSubmission s) = estimatedValue s
  /\ propertyData (handleFormSubmission s) = propertyData s
  /\ isCalculating (handleFormSubmission s) = true
  /\ timeouts (handleFormSubmission s) = [propertyData s]
  /\ dispatch (handleFormSubmission s) (TimeoutElapsed random)
     = Some {| propertyData := propertyData s;
               estimatedValue :=
                 Some (finalValuation (propertyData s) random);
               isCalculating := false;
               timeouts := [] |}.
Proof.
  intros Hv Ht Hr. unfold handleFormSubmission. rewrite Hv.
  split; [reflexivity|]. split; [reflexivity|]. split; [reflexivity|].
  split; [simpl; now rewrite Ht|].
  simpl. rewrite Ht. simpl. now rewrite (random_in_range _ Hr).
Qed.

Lemma handleFormSubmission_then_timeout_witness :
  estimatedValue
    (handleFormSubmission
       {| propertyData := exampleProperty;
          estimatedValue := Some (ofZ 600000);
          isCalculating := false;
          timeouts := [] |}) = Some (ofZ 600000).
Proof.
  refine (proj1 (handleFormSubmission_then_timeout
                   {| propertyData := exampleProperty;
                      estimatedValue := Some (ofZ 600000);
                      isCalculating := false;
                      timeouts := [] |} 0.5 _ _ _)).
  - reflexivity.
  - reflexivity.
  - split; lra.
Defined.

(** X9. Nothing is calculated before every control has been used: after any
    events from the initial state among which no change of some field [f]
    occurs, [f] is still empty, no calculation is pending or was started,
    and no result is stored. *)
Theorem no_calculation_before_every_field_is_set (f : FieldName)
    (events : list Event) (s : AppState) :
  (forall v, ~ In (Change f v) events) ->
  run initialState events = Some s ->
  field (propertyData s) f = ""
  /\ timeouts s = []
  /\ isCalculating s = false
  /\ estimatedValue s = None.
Proof.
  assert (Hgen : forall s0,
            field (propertyData s0) f = "" /\ timeouts s0 = []
            /\ isCalculating s0 = false /\ estimatedValue s0 = None ->
            (forall v, ~ In (Change f v) events) ->
            run s0 events = Some s ->
            field (propertyData s) f = "" /\ timeouts s = []
            /\ isCalculating s = false /\ estimatedValue s = None).
  { induction events as [|e events IH]; intros s0 H0 Hno Hrun; simpl in Hrun.
    - now injection Hrun as <-.
    - destruct (dispatch s0 e) as [s1|] eqn:Hd; [|discriminate].
      apply (IH s1); [|intros v Hin; apply (Hno v); now right|exact Hrun].
      destruct H0 as (Hf & Ht & Hc & Hv).
      destruct e as [name v| |random].
      + simpl in Hd. destruct (offers name v); [|discriminate].
        injection Hd as <-. simpl. rewrite field_updateField.
        destruct (FieldName_eq_dec name f) as [->|_]; [|tauto].
        exfalso. apply (Hno v). now left.
      + rewrite submit_incomplete in Hd by (now exists f).
        injection Hd as <-. tauto.
      + simpl in Hd. rewrite Ht in Hd. discriminate. }
  intros Hno Hrun. apply (Hgen initialState); try assumption.
  split; [now destruct f|]. tauto.
Qed.

Lemma no_calculation_before_every_field_is_set_witness :
  timeouts
    {| propertyData :=
         updateField BedroomCount "3"
           (updateField LivingArea "2000" initialPropertyData);
       estimatedValue := None;
       isCalculating := false;
       timeouts := [] |} = [].
Proof.
  refine (proj1 (proj2 (no_calculation_before_every_field_is_set
                          ParkingSpaces
                          [Change LivingArea "2000"; Change BedroomCount "3";
                           Submit] _ _ _))).
  - intros v [H|[H|[H|[]]]]; discriminate H.
  - reflexivity.
Defined.

(* ================================================================== *)
(** * Further properties of the valuation formula *)






(** X11. Depreciation never grows with the construction year: of two
    attribute sets whose years parse to finite numbers, the one with the
    later year has the smaller or equal age component. *)
Theorem ageComponent_antitone (older newer : PropertyAttributes)
    (y y' : Q) :
  parseFloat (constructionYear older) = Finite y ->
  parseFloat (constructionYear newer) = Finite y' ->
  y <= y' ->
  exists a a',
    ageComponent older = Finite a /\ ageComponent newer = Finite a'
    /\ a' <= a.
Proof.
  intros Hy Hy' Hle.
  rewrite (ageComponent_Finite _ _ Hy), (ageComponent_Finite _ _ Hy').
  eexists. eexists. split; [reflexivity|]. split; [reflexivity|].
  rewrite !Qred_correct.
  apply Q.max_le_compat_l. lra.
Qed.

Lemma ageComponent_antitone_witness :
  exists a a',
    ageComponent exampleProperty = Finite a
    /\ ageComponent (updateField ConstructionYear "2020" exampleProperty)
       = Finite a'
    /\ a' <= a.
Proof.
  apply (ageComponent_antitone exampleProperty
           (updateField ConstructionYear "2020" exampleProperty) 2010 2020).
  - vm_compute. reflexivity.
  - vm_compute. reflexivity.
  - lra.
Defined.

(** X12. Outside the names inherited from [Object.prototype] the location
    factor is as intended: 1.0 for every zone that is none of the three, the
    empty string included.  For each inherited name, however, the factor is
    the inherited object and the adjusted valuation is [NaN]. *)
Theorem locationFactor_by_zone (data : PropertyAttributes) :
  (geographicZone data <> "urban" ->
   geographicZone data <> "suburban" ->
   geographicZone data <> "rural" ->
   ownProperty Object_prototype (geographicZone data) = None ->
   locationFactor data = Number (finite 1.0))
  /\ (ownProperty Object_prototype (geographicZone data) <> None ->
      (exists name, locationFactor data = BuiltinObject name)
      /\ adjustedValuation data = NaN).
Proof.
  split.
  - intros H1 H2 H3 Hproto. apply locationFactor_default; [|exact Hproto].
    unfold LOCATION_FACTORS. cbn [ownProperty].
    destruct (String.eqb_spec "urban" (geographicZone data)); [congruence|].
    destruct (String.eqb_spec "suburban" (geographicZone data));
      [congruence|].
    destruct (String.eqb_spec "rural" (geographicZone data)); [congruence|].
    reflexivity.
  - intros Hproto.
    assert (Hobj : exists name, locationFactor data = BuiltinObject name).
    { unfold locationFactor, getProperty.
      assert (Hown : ownProperty LOCATION_FACTORS (geographicZone data) = None
                     \/ ownProperty Object_prototype (geographicZone data)
                        = None).
      { unfold LOCATION_FACTORS. cbn [ownProperty].
        destruct (String.eqb_spec "urban" (geographicZone data)) as [<-|_];
          [now right|].
        destruct (String.eqb_spec "suburban" (geographicZone data)) as [<-|_];
          [now right|].
        destruct (String.eqb_spec "rural" (geographicZone data)) as [<-|_];
          [now right|]. now left. }
      destruct Hown as [Hown|Hown]; [|contradiction]. rewrite Hown.
      unfold Object_prototype in Hproto |- *.
      cbn [ownProperty] in Hproto |- *.
      repeat match goal with
             | |- context [String.eqb ?k (geographicZone data)] =>
                 destruct (String.eqb k (geographicZone data));
                 [eexists; reflexivity|]
             end.
      contradiction. }
    split; [exact Hobj|]. destruct Hobj as [name Hname].
    unfold adjustedValuation. rewrite Hname. apply mul_NaN_r.
Qed.

Lemma locationFactor_by_zone_witness :
  locationFactor (updateField GeographicZone "downtown" exampleProperty)
  = Number (finite 1.0).
Proof.
  apply (proj1 (locationFactor_by_zone
                  (updateField GeographicZone "downtown" exampleProperty)));
    try discriminate.
  reflexivity.
Defined.

(* ================================================================== *)
(** * The animated background *)

Lemma isOpenAfter_succ (n : nat) :
  Window.isOpenAfter (S n) = negb (Window.isOpenAfter n).
Proof. reflexivity. Qed.

(** X13. A window is open exactly after an odd number of interval ticks, so
    two ticks bring it back to where it was, and its panes are scaled to 0.3
    when open and to 1 when closed; the interval period is between 4000 and
    6000 whatever the random draw in [0, 1]. *)
Theorem window_toggles (n : nat) :
  Window.isOpenAfter n = Nat.odd n
  /\ Window.isOpenAfter (S (S n)) = Window.isOpenAfter n
  /\ Window.scaleX (Window.isOpenAfter n)
     = (if Nat.odd n then finite 0.3 else ofZ 1)
  /\ forall random, 0 <= random <= 1 ->
       exists period,
         Window.intervalPeriod random = Finite period
         /\ 4000 <= period <= 6000.
Proof.
  assert (Hodd : Window.isOpenAfter n = Nat.odd n).
  { induction n as [|n IH]; [reflexivity|].
    rewrite isOpenAfter_succ, IH, Nat.odd_succ, <- Nat.negb_odd. reflexivity. }
  split; [exact Hodd|]. split; [|split].
  - rewrite !isOpenAfter_succ. apply negb_involutive.
  - rewrite Hodd. reflexivity.
  - intros random [H0 H1]. eexists. split; [reflexivity|].
    rewrite !Qred_correct. change (inject_Z 4000) with 4000.
    change (inject_Z 2000) with 2000. split; lra.
Qed.

Lemma window_toggles_witness :
  exists period,
    Window.intervalPeriod 0.5 = Finite period /\ 4000 <= period <= 6000.
Proof.
  apply (proj2 (proj2 (proj2 (window_toggles 0))) 0.5). split; lra.
Defined.

Lemma nth_error_map_seq {A : Type} (f : nat -> A) (n a i : nat) :
  (i < n)%nat -> nth_error (map f (seq a n)) i = Some (f (a + i)%nat).
Proof.
  revert a i. induction n as [|n IH]; intros a i Hi; [lia|].
  destruct i as [|i]; simpl.
  - now rewrite Nat.add_0_r.
  - rewrite IH by lia. f_equal. f_equal. lia.
Qed.

Lemma mul_ofZ (a b : Z) : mul (ofZ a) (ofZ b) = ofZ (a * b).
Proof.
  transitivity (finite (inject_Z (a * b))); [|apply finite_inject_Z].
  unfold mul, ofZ. apply finite_eq. now rewrite inject_Z_mult.
Qed.

(** X14. The background has fifteen leaves; the leaf at index [i] has key
    [i] and starts after [2 * i] seconds, so the keys are all different and
    the delays run from 0 to 28; each duration is between 10 and 15 whatever
    the random draws in [0, 1]. *)
Theorem leaves_schedule (toString : number -> string) (randoms : nat -> Q) :
  (forall n, 0 <= randoms n <= 1) ->
  List.length (AnimatedBackground.leaves toString randoms) = 15%nat
  /\ NoDup (map AnimatedBackground.key
              (AnimatedBackground.leaves toString randoms))
  /\ forall i, (i < 15)%nat ->
       exists l,
         nth_error (AnimatedBackground.leaves toString randoms) i = Some l
         /\ AnimatedBackground.key l = ofZ (Z.of_nat i)
         /\ AnimatedBackground.delay l = ofZ (2 * Z.of_nat i)
         /\ exists d,
              AnimatedBackground.duration l = Finite d /\ 10 <= d <= 15.
Proof.
  intros Hr. split; [reflexivity|]. split.
  - unfold AnimatedBackground.leaves. rewrite map_map.
    apply NoDup_map_injective; [|apply seq_NoDup].
    intros x y H. simpl in H. unfold ofZ, inject_Z in H.
    injection H as H. now apply Nat2Z.inj.
  - intros i Hi. exists (AnimatedBackground.leaf toString randoms i).
    split; [exact (nth_error_map_seq _ 15 0 i Hi)|].
    split; [reflexivity|]. split.
    + unfold AnimatedBackground.leaf. cbn [AnimatedBackground.delay].
      rewrite mul_ofZ. f_equal. lia.
    + eexists. split; [reflexivity|].
      destruct (Hr (2 * i)%nat) as [H0 H1].
      rewrite !Qred_correct. change (inject_Z 10) with 10.
      change (inject_Z 5) with 5. split; lra.
Qed.

Lemma leaves_schedule_witness :
  List.length (AnimatedBackground.leaves (fun _ => "50") (fun _ => 0.5))
  = 15%nat.
Proof.
  apply (proj1 (leaves_schedule (fun _ => "50") (fun _ => 0.5)
                  (fun _ => conj (Qle_bool_imp_le 0 0.5 eq_refl)
                                 (Qle_bool_imp_le 0.5 1 eq_refl)))).
Defined.

(* ================================================================== *)
(** * Signs and white space in [parseFloat] *)






